(** * Availability and pricing engine of the Xpert Moto fleet dashboard

    A shallow embedding of [src/components/AvailabilityTable.jsx]
    ([getStatus], [getPriceForDuration], [sortedBikes]) and of
    [src/utils/dataFetcher.js] ([extractBikeMetadata],
    [fetchAvailabilityData], [extractGlobalSettings], [fetchProductImages],
    [fetchBookingsProgressively]) and of the loading of the data in
    [src/App.jsx], followed by the properties the specification states
    about them and by further properties read off the code.

    Conventions of the embedding:
    - a JavaScript object used as a dictionary is a [gmap] with string keys,
      a [Set] of strings is a [gset string], an array is a [list];
    - a value that may be [undefined] is an [option];
    - a JavaScript number that holds a price is an IEEE-754 binary64 value
      ([Double.t], built on the standard library's executable specification
      [SpecFloat] of the format); the price a tier lists is the decimal the
      catalog gives, an exact rational ([Qc]); numbers holding day counts,
      weekdays and days of the month are integers ([Z]);
    - a [Date] is the number of the local calendar day since 1970-01-01, the
      only part of it the engine reads (year, month, day of month, weekday). *)

From Stdlib Require Import ZArith QArith Qcanon Lia Ascii String.
From Stdlib Require Import Floats.SpecFloat.
From stdpp Require Import base numbers gmap strings list pretty sorting.

Open Scope Z_scope.

(** ** JavaScript values stored in a booking map *)

Module Js.

Inductive value :=
| Undefined
| Null
| Bool (b : bool)
| Num (n : Z)
| Str (s : string)
| Obj.

(** ToBoolean *)
Definition truthy (v : value) : bool :=
  match v with
  | Undefined | Null => false
  | Bool b => b
  | Num n => negb (n =? 0)
  | Str s => negb (String.eqb s "")
  | Obj => true
  end.

(** [a || b] *)
Definition or (a b : value) : value := if truthy a then a else b.

(** [o[k]] on a dictionary object *)
Definition get (o : gmap string value) (k : string) : value :=
  default Undefined (o !! k).

(** A number as the price code compares it: an integer, NaN or Infinity. *)
Inductive number :=
| NaN
| Fin (n : Z)
| Infinity.

(** [a >= b] and [a <= b] for an integer [a]; every comparison with NaN is
    false. *)
Definition ge (a : Z) (b : number) : bool :=
  match b with
  | Fin n => a >=? n
  | NaN | Infinity => false
  end.

Definition le (a : Z) (b : number) : bool :=
  match b with
  | Fin n => a <=? n
  | Infinity => true
  | NaN => false
  end.

(** [a >= b] for an integer [b] *)
Definition atLeast (a : number) (b : Z) : bool :=
  match a with
  | Fin n => n >=? b
  | Infinity => true
  | NaN => false
  end.

(** [String.prototype.padStart(n, "0")] *)
Definition padStart0 (n : nat) (s : string) : string :=
  String.concat "" (replicate (n - String.length s)%nat "0"%string) +:+ s.

End Js.

(** ** Calendar dates *)

Module Date.

(** A local calendar day, counted from 1970-01-01 (day 0). *)
Definition t := Z.

Record civil := { year : Z; month : Z; day : Z }.

(** The proleptic Gregorian calendar, as [Date] implements it. *)
Definition civil_of (z : t) : civil :=
  let z := z + 719468 in
  let era := z / 146097 in
  let doe := z - era * 146097 in
  let yoe := (doe - doe / 1460 + doe / 36524 - doe / 146096) / 365 in
  let doy := doe - (365 * yoe + yoe / 4 - yoe / 100) in
  let mp := (5 * doy + 2) / 153 in
  let d := doy - (153 * mp + 2) / 5 + 1 in
  let m := if mp <? 10 then mp + 3 else mp - 9 in
  {| year := yoe + era * 400 + (if m <=? 2 then 1 else 0);
     month := m; day := d |}.

Definition of_civil (y m d : Z) : t :=
  let y := if m <=? 2 then y - 1 else y in
  let era := y / 400 in
  let yoe := y - era * 400 in
  let doy := (153 * (if m >? 2 then m - 3 else m + 9) + 2) / 5 + d - 1 in
  let doe := yoe * 365 + yoe / 4 - yoe / 100 + doy in
  era * 146097 + doe - 719468.

Definition getFullYear (d : t) : Z := year (civil_of d).
(** zero-based, as in JavaScript *)
Definition getMonth (d : t) : Z := month (civil_of d) - 1.
Definition getDate (d : t) : Z := day (civil_of d).
(** date-fns [getDay]: 0 = Sunday .. 6 = Saturday; day 0 was a Thursday *)
Definition getDay (d : t) : Z := (d + 4) mod 7.
(** date-fns [addDays] *)
Definition addDays (d : t) (n : Z) : t := d + n.

(** date-fns [addLeadingZeros] *)
Definition addLeadingZeros (number : Z) (targetLength : nat) : string :=
  (if number <? 0 then "-" else "")
    +:+ Js.padStart0 targetLength (pretty (Z.abs_N number)).

(** date-fns tokens [yyyy], [MM], [dd] *)
Definition yyyy (d : t) : string :=
  let signedYear := getFullYear d in
  addLeadingZeros (if signedYear >? 0 then signedYear else 1 - signedYear) 4.
Definition MM (d : t) : string := addLeadingZeros (getMonth d + 1) 2.
Definition dd (d : t) : string := addLeadingZeros (getDate d) 2.

(** [format(date, 'yyyy/MM/dd')] and [format(date, 'yyyy-MM-dd')] *)
Definition format_slash (d : t) : string := yyyy d +:+ "/" +:+ MM d +:+ "/" +:+ dd d.
Definition format_dash (d : t) : string := yyyy d +:+ "-" +:+ MM d +:+ "-" +:+ dd d.

(** [(n).toString()] of an integer *)
Definition toString (n : Z) : string :=
  (if n <? 0 then "-" else "") +:+ pretty (Z.abs_N n).

End Date.

(** ** Data model *)

(** [days] and [to] of a price tier: a day count or the string ['default']. *)
Inductive bound :=
| Int (n : Z)
| Default.

Global Instance bound_eq_dec : EqDecision bound.
Proof. solve_decision. Defined.

(** [parseInt] on such a field *)
Definition parseInt (b : bound) : Js.number :=
  match b with
  | Int n => Js.Fin n
  | Default => Js.NaN
  end.

(** An integer among the decimals. *)
Definition num (z : Z) : Qc := Q2Qc (inject_Z z).

Module Tier.
(** One entry of [variantData.prices]; [price] is the decimal it lists, as a
    JSON number or as a string, which [parseFloat] turns into a number. *)
Record t := { days : bound; to : bound; price : Qc }.
End Tier.

Module VariantData.
Record t := { stock : option Z; prices : option (list Tier.t) }.
End VariantData.

Module Metafields.
(** The object [JSON.parse(product.newMetafields.value)] returns. An entry of
    [variantStock] is [None] when it is [null]. *)
Record t := {
  stock : option string;
  variantStock : option (list (string * option VariantData.t));
  closures : option (list Z);
  disabledDatesGlobal : option (gmap string (gmap string (list Z)))
}.
End Metafields.

Module Settings.
(** [globalSettings] *)
Record t := {
  closures : list Z;
  disabledDatesGlobal : gmap string (gmap string (list Z))
}.
End Settings.

Module Bike.
Record t := {
  handle : string;
  productId : string;
  variantId : string;
  name : string;
  stock : Z;
  imageUrl : option string;
  pricing : option (list Tier.t);
  metafields : Metafields.t;
  bookings : option (gmap string Js.value);
  isLoading : bool
}.
End Bike.

Inductive status := Loading | Available | Booked | Closed | Half.

Global Instance status_eq_dec : EqDecision status.
Proof. solve_decision. Defined.

(** [Array.prototype.includes] on an array of integers *)
Definition includes (l : list Z) (x : Z) : bool := bool_decide (x ∈ l).

(** ** Price of a bike for a rental of [days] days *)

(** The predicate of the first [find]. *)
Definition tierApplies (days : Z) (p : Tier.t) : bool :=
  if bool_decide (Tier.days p = Default) then false
  else
    let from := parseInt (Tier.days p) in
    let to := if bool_decide (Tier.to p = Default) then Js.Infinity
              else parseInt (Tier.to p) in
    Js.ge days from && Js.le days to.

Definition isDefaultTier (p : Tier.t) : bool :=
  bool_decide (Tier.days p = Default).

(** The numbers of the price arithmetic, and the price as the table computes
    it. *)
Module Double.

(** A JavaScript number: a binary64 value, with one NaN. *)
Definition t := spec_float.

Definition prec : Z := 53.
Definition emax : Z := 1024.

Definition zero : t := S754_zero false.

(** The number that holds the integer [z] (the nearest one, beyond 2^53). *)
Definition num (z : Z) : t := binary_normalize prec emax z 0 false.

(** [parseFloat] on a decimal, and the value of a decimal literal: the
    number nearest to it, ties to even. The quotient of numerator and
    denominator is rounded once. *)
Definition parseFloat (q : Qc) : t :=
  match Qnum q with
  | Z0 => zero
  | Zpos n => SFdiv prec emax (S754_finite false n 0) (S754_finite false (Qden q) 0)
  | Zneg n => SFdiv prec emax (S754_finite true n 0) (S754_finite false (Qden q) 0)
  end.

(** [a * b], [a / b], [a - b], [a == b] and [a < b] on numbers *)
Definition mul (a b : t) : t := SFmul prec emax a b.
Definition div (a b : t) : t := SFdiv prec emax a b.
Definition sub (a b : t) : t := SFsub prec emax a b.
Definition eqb (a b : t) : bool := SFeqb a b.
Definition ltb (a b : t) : bool := SFltb a b.

Definition isNaN (a : t) : bool :=
  match a with
  | S754_nan => true
  | _ => false
  end.

(** The sign test [Array.prototype.sort] applies to the comparator's
    result [v]: is [v] at most 0? A NaN counts as +0. *)
Definition nonPositive (v : t) : bool := negb (ltb zero v).

(** The least exponent of the format, and the numbers whose exponent is not
    below it: every number that [parseFloat] or an operation returns. *)
Definition emin : Z := -1074.

Definition representable (x : t) : Prop :=
  match x with
  | S754_finite _ _ e => emin ≤ e
  | _ => True
  end.

(** The order of the numbers by value: the infinities below and above the
    rest, and in between the order of the values, counted in units of
    2^emin. *)
Definition scaled (x : t) : Z :=
  match x with
  | S754_finite s m e => cond_Zopp s (Z.pos m * 2 ^ (e - emin))
  | _ => 0
  end.

Definition rank (x : t) : Z * Z :=
  match x with
  | S754_infinity true => (-1, 0)
  | S754_infinity false => (1, 0)
  | _ => (0, scaled x)
  end.

Definition rank_le (a b : Z * Z) : Prop :=
  a.1 < b.1 ∨ (a.1 = b.1 ∧ a.2 ≤ b.2).

(** A zero, a positive number or the positive infinity. *)
Definition nonNegative (x : t) : Prop :=
  match x with
  | S754_zero _ | S754_infinity false | S754_finite false _ _ => True
  | _ => False
  end.

(** [getPriceForDuration]. [days] is the integer the number [days] holds;
    the products and the quotient are those of binary64, each rounded to the
    nearest number. *)
Definition getPriceForDuration (bike : Bike.t) (days : Z) : t :=
  match Bike.pricing bike with
  | None | Some [] => zero
  | Some pricing =>
      match List.find (tierApplies days) pricing with
      | Some tier =>
          let tierPrice := parseFloat (Tier.price tier) in
          let tierStart := parseInt (Tier.days tier) in
          if Js.atLeast tierStart 7 then
            let weeks := div (num days) (num 7) in
            mul tierPrice weeks
          else tierPrice
      | None =>
          match List.find isDefaultTier pricing with
          | Some defaultTier =>
              let defaultPrice := parseFloat (Tier.price defaultTier) in
              mul defaultPrice (num days)
          | None => zero
          end
      end
  end.

End Double.

(** The same expression on the listed decimals, without rounding: the price
    the tiers stand for. *)
Definition getPriceForDuration (bike : Bike.t) (days : Z) : Qc :=
  match Bike.pricing bike with
  | None | Some [] => 0
  | Some pricing =>
      match List.find (tierApplies days) pricing with
      | Some tier =>
          let tierPrice := Tier.price tier in
          let tierStart := parseInt (Tier.days tier) in
          if Js.atLeast tierStart 7 then
            let weeks := num days / num 7 in
            tierPrice * weeks
          else tierPrice
      | None =>
          match List.find isDefaultTier pricing with
          | Some defaultTier =>
              let defaultPrice := Tier.price defaultTier in
              defaultPrice * num days
          | None => 0
          end
      end
  end%Qc.

(** ** [AvailabilityTable]: status of a bike on a date *)

Section Table.

Variable globalSettings : Settings.t.

(** [globalSettings.disabledDatesGlobal[year]?.[month]?.includes(dayNumeric)];
    [None] is [undefined]. *)
Definition isHoliday (date : Date.t) : option bool :=
  let year := Date.yyyy date in
  let month := Date.toString (Date.getMonth date + 1) in
  let dayNumeric := Date.getDate date in
  byYear ← Settings.disabledDatesGlobal globalSettings !! year;
  byMonth ← byYear !! month;
  Some (includes byMonth dayNumeric).

Definition isStoreClosed (date : Date.t) : bool :=
  includes (Settings.closures globalSettings) (Date.getDay date)
  || default false (isHoliday date).

(** The value of [isBooked] once [bike.bookings] is known to be an object. *)
Definition isBooked (bookings : gmap string Js.value) (date : Date.t) : Js.value :=
  let yearMonthDay := Date.format_slash date in
  Js.or
    (Js.or (Js.get bookings yearMonthDay)
           (Js.get bookings (yearMonthDay +:+ "_start")))
    (Js.get bookings (yearMonthDay +:+ "_end")).

Definition isHalfDay (date : Date.t) : bool := Date.getDay date =? 6.

Definition getStatus (bike : Bike.t) (date : Date.t) : status :=
  match Bike.isLoading bike, Bike.bookings bike with
  | false, Some bookings =>
      if Js.truthy (isBooked bookings date) then Booked
      else if isStoreClosed date then Closed
      else if isHalfDay date then Half
      else Available
  | _, _ => Loading
  end.

(** The first revision of the component, written before bookings were loaded
    progressively: no loading state, and [bike.bookings] tested in place. *)
Definition getStatus_legacy (bike : Bike.t) (date : Date.t) : status :=
  let booked :=
    match Bike.bookings bike with
    | Some bookings => Js.truthy (isBooked bookings date)
    | None => false
    end in
  if booked then Booked
  else if isStoreClosed date then Closed
  else if isHalfDay date then Half
  else Available.

(** ** The rows of the table: filter by selected dates, then sort *)

(** [String.prototype.localeCompare] depends on the host's locale; it is a
    parameter of the component. *)
Variable localeCompare : string → string → Z.

(** [Array.prototype.sort(comparefn)]: ECMAScript requires the sort to be
    stable and, for a consistent comparator, the result to be ordered by it;
    these two requirements fix the result. It is embedded as the insertion
    sort that places every element, taken from the right, in front of the
    first element it does not exceed. A comparator that is not consistent
    (one that meets a NaN price) leaves the order to the engine. *)
Fixpoint sortInsert {A} (comparefn : A → A → Double.t) (x : A) (l : list A) : list A :=
  match l with
  | [] => [x]
  | y :: l' =>
      if Double.nonPositive (comparefn x y) then x :: y :: l'
      else y :: sortInsert comparefn x l'
  end.

Definition sort {A} (comparefn : A → A → Double.t) (l : list A) : list A :=
  foldr (sortInsert comparefn) [] l.

(** [Array.from({ length: days }).map((_, i) => addDays(new Date(), i))],
    with [today] the calendar day [new Date()] gives while the columns are
    built, which is within one call of the [useMemo] callback. *)
Definition dates (today : Date.t) (days : nat) : list Date.t :=
  map (λ i, Date.addDays today (Z.of_nat i)) (seq 0 days).

(** [toggleDateFilter], the only writer of [selectedDates]: a click on the
    header of a shown date adds its key to the set or removes it. *)
Definition toggleDateFilter (date : Date.t) (prev : gset string) : gset string :=
  let dateKey := Date.format_dash date in
  if bool_decide (dateKey ∈ prev) then prev ∖ {[dateKey]} else prev ∪ {[dateKey]}.

Section Rows.

Variable bikes : list Bike.t.
Variable duration : Z.
Variable sortOrder : string.
Variable selectedDates : gset string.
Variable shownDates : list Date.t.

(** The callback of [dates.some] for one bike. *)
Definition freeOnSelected (bike : Bike.t) (date : Date.t) : bool :=
  let dateKey := Date.format_dash date in
  if negb (bool_decide (dateKey ∈ selectedDates)) then false
  else
    let status := getStatus bike date in
    bool_decide (status = Available) || bool_decide (status = Half).

Definition filteredBikes : list Bike.t :=
  if (0 <? size selectedDates)%nat then
    List.filter (λ bike, existsb (freeOnSelected bike) shownDates) bikes
  else bikes.

(** The comparator handed to [sort]. *)
Definition compareBikes (a b : Bike.t) : Double.t :=
  if String.eqb sortOrder "asc" || String.eqb sortOrder "desc" then
    let priceA := Double.getPriceForDuration a duration in
    let priceB := Double.getPriceForDuration b duration in
    if String.eqb sortOrder "asc" then Double.sub priceA priceB
    else Double.sub priceB priceA
  else Double.num (localeCompare (Bike.name a) (Bike.name b)).

Definition sortedBikes : list Bike.t := sort compareBikes filteredBikes.

End Rows.

End Table.

(** ** [dataFetcher.js]: building the fleet from the catalog *)

Module Product.
(** An entry of [exampleData.data]. [handle] and [id] are [None] when the
    field is missing or is not a string. [newMetafields] is [None] when the
    field is missing, [Some None] when [JSON.parse] rejects its [value], and
    otherwise holds the parsed object. *)
Record t := {
  handle : option string;
  id : option string;
  newMetafields : option (option Metafields.t)
}.
End Product.

(** [Object.entries(exampleData.data)]; a [null] product is [None]. *)
Definition exampleData := list (string * option Product.t).

(** [s.replace(/-/g, ' ')] *)
Fixpoint replaceDashes (s : string) : string :=
  match s with
  | EmptyString => EmptyString
  | String c s' => String (if Ascii.eqb c "-" then " "%char else c) (replaceDashes s')
  end.

(** [s.replace(pat, '')] for a non-empty string [pat]: the first occurrence
    only. *)
Fixpoint removeFirst (pat s : string) : string :=
  match s with
  | EmptyString => EmptyString
  | String c s' =>
      if String.prefix pat s
      then String.substring (String.length pat) (String.length s - String.length pat) s
      else String c (removeFirst pat s')
  end.

(** [s.toUpperCase()] on the ASCII letters of a product handle *)
Definition upper (c : ascii) : ascii :=
  let n := Ascii.nat_of_ascii c in
  if ((97 <=? n) && (n <=? 122))%nat then Ascii.ascii_of_nat (n - 32) else c.

Fixpoint toUpperCase (s : string) : string :=
  match s with
  | EmptyString => EmptyString
  | String c s' => String (upper c) (toUpperCase s')
  end.

(** [s.split(sep)] for a one-character separator *)
Fixpoint split (sep : ascii) (s : string) : list string :=
  match s with
  | EmptyString => [EmptyString]
  | String c s' =>
      let rest := split sep s' in
      if Ascii.eqb c sep then EmptyString :: rest
      else match rest with
           | w :: ws => String c w :: ws
           | [] => [String c EmptyString]
           end
  end.

(** [product.id.split('/').pop()] *)
Definition lastSegment (s : string) : string := List.last (split "/" s) EmptyString.

Definition bikeName (handle : string) : string :=
  toUpperCase (removeFirst " rental" (replaceDashes handle)).

Section Fetcher.

Variable imageMap : gmap string string.

(** [imageMap[product.handle] || null], for a handle that is not the name of
    a member of [Object.prototype] *)
Definition imageOf (handle : string) : option string :=
  match imageMap !! handle with
  | Some src => if String.eqb src "" then None else Some src
  | None => None
  end.

(** [parseInt(variantData.stock || 1)], for a stock below 10^21, which
    [parseInt] reads back in full *)
Definition stockOf (variantData : VariantData.t) : Z :=
  match VariantData.stock variantData with
  | Some n => if n =? 0 then 1 else n
  | None => 1
  end.

(** The object pushed for one variant. [extractBikeMetadata] pushes it with
    [bookings: undefined, isLoading: true]; the legacy
    [fetchAvailabilityData] pushed it without the two fields. Building it
    throws, and gives [None], when the entry is [null] ([variantData.prices]),
    when [product.id] has no [split] or [product.handle] no [replace]. *)
Definition variantBike (isLoading : bool) (product : Product.t)
    (metafields : Metafields.t) (variantId : string)
    (variantData : option VariantData.t) : option Bike.t :=
  variantData ← variantData;
  id ← Product.id product;
  handle ← Product.handle product;
  Some {| Bike.handle := handle;
          Bike.productId := lastSegment id;
          Bike.variantId := variantId;
          Bike.name := bikeName handle;
          Bike.stock := stockOf variantData;
          Bike.imageUrl := imageOf handle;
          Bike.pricing := Some (default [] (VariantData.prices variantData));
          Bike.metafields := metafields;
          Bike.bookings := None;
          Bike.isLoading := isLoading |}.

(** The two variables the loops update: the array under construction and
    the set [seenVariantIds]. *)
Record collected := { bikes : list Bike.t; seenVariantIds : gset string }.

(** How a callback ends: by returning, or by throwing; either way the two
    variables are as it left them. *)
Inductive completion :=
| Normal (st : collected)
| Throw (st : collected).

(** Body of the inner [forEach]: the identifier is added to the set before
    the object is built. *)
Definition visitVariant (isLoading : bool) (product : Product.t)
    (metafields : Metafields.t) (st : collected)
    (entry : string * option VariantData.t) : completion :=
  let '(variantId, variantData) := entry in
  if String.eqb variantId "product" then Normal st
  else if bool_decide (variantId ∈ seenVariantIds st) then Normal st
  else
    let st := {| seenVariantIds := {[variantId]} ∪ seenVariantIds st;
                 bikes := bikes st |} in
    match variantBike isLoading product metafields variantId variantData with
    | Some bike => Normal {| seenVariantIds := seenVariantIds st;
                             bikes := bikes st ++ [bike] |}
    | None => Throw st
    end.

(** [Array.prototype.forEach]: the callback runs on one element after the
    other; when it throws, the elements that are left are not visited. *)
Fixpoint forEach {A} (callback : collected → A → completion) (l : list A)
    (st : collected) : completion :=
  match l with
  | [] => Normal st
  | x :: l' =>
      match callback st x with
      | Normal st' => forEach callback l' st'
      | Throw st' => Throw st'
      end
  end.

(** Body of the outer [forEach]: a [null] product is passed over; the [try]
    block fails before the first variant when [newMetafields] is missing, its
    [value] is not JSON or [variantStock] is missing, and otherwise runs the
    inner [forEach]; the [catch] logs the exception and goes on with what the
    block has written so far. *)
Definition visitProduct (isLoading : bool) (st : collected)
    (entry : string * option Product.t) : collected :=
  match entry.2 with
  | None => st
  | Some product =>
      match Product.newMetafields product with
      | Some (Some metafields) =>
          match Metafields.variantStock metafields with
          | Some variants =>
              match forEach (visitVariant isLoading product metafields) variants st with
              | Normal st' => st'
              | Throw st' => st'
              end
          | None => st
          end
      | _ => st
      end
  end.

Definition collect (isLoading : bool) (data : exampleData) : list Bike.t :=
  bikes (fold_left (visitProduct isLoading) data {| bikes := []; seenVariantIds := ∅ |}).

Definition defaultSettings : Settings.t :=
  {| Settings.closures := [0]; Settings.disabledDatesGlobal := ∅ |}.

Definition extractGlobalSettings (data : exampleData) : Settings.t :=
  match List.find (λ p, match p with
                        | Some p => bool_decide (is_Some (Product.newMetafields p))
                        | None => false
                        end) data.*2 with
  | Some (Some firstProduct) =>
      match Product.newMetafields firstProduct with
      | Some (Some metafields) =>
          {| Settings.closures := default [0] (Metafields.closures metafields);
             Settings.disabledDatesGlobal :=
               default ∅ (Metafields.disabledDatesGlobal metafields) |}
      | _ => defaultSettings
      end
  | _ => defaultSettings
  end.

(** [extractBikeMetadata] returns [{ bikes, globalSettings, lastUpdated }];
    the time stamp is left out. *)
Definition extractBikeMetadata (data : exampleData) : list Bike.t * Settings.t :=
  (collect true data, extractGlobalSettings data).

(** The booking service: what [fetchBookings] resolves to for a bike. [None]
    stands for a falsy response body; a truthy body that is not a dictionary
    has none of the keys the table asks for, like the empty map. *)
Variable fetchBookings : Bike.t → option (gmap string Js.value).

(** [{ ...bike, bookings: bookings, isLoading: false }] *)
Definition withBookings (bike : Bike.t) : Bike.t :=
  {| Bike.handle := Bike.handle bike;
     Bike.productId := Bike.productId bike;
     Bike.variantId := Bike.variantId bike;
     Bike.name := Bike.name bike;
     Bike.stock := Bike.stock bike;
     Bike.imageUrl := Bike.imageUrl bike;
     Bike.pricing := Bike.pricing bike;
     Bike.metafields := Bike.metafields bike;
     Bike.bookings := fetchBookings bike;
     Bike.isLoading := false |}.

(** [fetchAvailabilityData] returns [{ lastUpdated, globalSettings,
    availability }]. *)
Definition fetchAvailabilityData (data : exampleData) : Settings.t * list Bike.t :=
  let '(bikes, globalSettings) := extractBikeMetadata data in
  (globalSettings, map withBookings bikes).

(** The earlier [fetchAvailabilityData], with the catalog loop written in
    line and no [isLoading] field. *)
Definition fetchAvailabilityData_legacy (data : exampleData) : Settings.t * list Bike.t :=
  let products := collect false data in
  (extractGlobalSettings data, map withBookings products).

End Fetcher.

(** ** The rest of the component and of [App] *)

(** [toggleSort]: the value handed to [onSortChange]. *)
Definition toggleSort (sortOrder : string) : string :=
  if String.eqb sortOrder "asc" then "desc" else "asc".

(** The durations the [select] of [App] offers. *)
Definition durationOptions : list Z := [1; 2; 3; 7; 14; 21; 28].

(** [sortedBikes] of the first revision of the component:
    [[...data.availability].sort(...)], with the comparator of today. *)
Definition sortedBikes_legacy (localeCompare : string → string → Z)
    (availability : list Bike.t) (duration : Z) (sortOrder : string) : list Bike.t :=
  sort (compareBikes localeCompare duration sortOrder) availability.

Module Shopify.
(** A product of [products.json], as far as [fetchProductImages] reads it:
    [images] is [None] when the field is missing. *)
Record image := { src : string }.
Record product := { handle : string; images : option (list image) }.
End Shopify.

(** [fetchProductImages]; [response] is [None] when the request fails, which
    the [catch] turns into an empty map. *)
Definition fetchProductImages (response : option (list Shopify.product)) : gmap string string :=
  match response with
  | Some products =>
      fold_left
        (λ (imageMap : gmap string string) p,
           match Shopify.images p with
           | Some (first :: _) => <[Shopify.handle p := Shopify.src first]> imageMap
           | _ => imageMap
           end)
        products ∅
  | None => ∅
  end.

Module App.

(** The state of [App] that the loading of the data writes; the time stamp
    kept in [data] is left out. *)
Record loadingStatus := { loaded : nat; total : nat; isComplete : bool }.
Record state := {
  bikes : list Bike.t;
  globalSettings : option Settings.t;
  status : loadingStatus
}.

(** [useState] initial values *)
Definition initial : state :=
  {| bikes := []; globalSettings := None;
     status := {| loaded := 0; total := 0; isComplete := false |} |}.

(** [{ ...bike, ...bookingData }] with
    [bookingData = { bookings, isLoading: false }] *)
Definition merge (bookings : option (gmap string Js.value)) (bike : Bike.t) : Bike.t :=
  {| Bike.handle := Bike.handle bike;
     Bike.productId := Bike.productId bike;
     Bike.variantId := Bike.variantId bike;
     Bike.name := Bike.name bike;
     Bike.stock := Bike.stock bike;
     Bike.imageUrl := Bike.imageUrl bike;
     Bike.pricing := Bike.pricing bike;
     Bike.metafields := Bike.metafields bike;
     Bike.bookings := bookings;
     Bike.isLoading := false |}.

(** The callbacks [App] hands to [fetchBookingsProgressively]. *)
Definition onBikeUpdate (variantId : string)
    (bookings : option (gmap string Js.value)) (st : state) : state :=
  {| bikes := map (λ bike, if String.eqb (Bike.variantId bike) variantId
                           then merge bookings bike else bike) (bikes st);
     globalSettings := globalSettings st;
     status := status st |}.

Definition onProgress (current total : nat) (st : state) : state :=
  {| bikes := bikes st; globalSettings := globalSettings st;
     status := {| loaded := current; total := total; isComplete := false |} |}.

Definition onComplete (st : state) : state :=
  {| bikes := bikes st; globalSettings := globalSettings st;
     status := {| loaded := loaded (status st); total := total (status st);
                  isComplete := true |} |}.

Section Loading.

Variable fetchBookings : Bike.t → option (gmap string Js.value).

(** The loop of [fetchBookingsProgressively] from index [i] on, run on the
    state of [App]. *)
Fixpoint progressFrom (total i : nat) (todo : list Bike.t) (st : state) : state :=
  match todo with
  | [] => st
  | bike :: rest =>
      let st := onProgress (i + 1) total st in
      let bookings := fetchBookings bike in
      let st := onBikeUpdate (Bike.variantId bike) bookings st in
      progressFrom total (i + 1) rest st
  end.

Definition fetchBookingsProgressively (fleet : list Bike.t) (st : state) : state :=
  onComplete (progressFrom (length fleet) 0 fleet st).

(** [loadData], once [example.json] and the product images have arrived. *)
Definition loadData (data : exampleData)
    (response : option (list Shopify.product)) : state :=
  let imageMap := fetchProductImages response in
  let initialData := extractBikeMetadata imageMap data in
  let st := {| bikes := initialData.1;
               globalSettings := Some initialData.2;
               status := {| loaded := 0; total := length initialData.1;
                            isComplete := false |} |} in
  fetchBookingsProgressively initialData.1 st.

End Loading.

(** [hasData], with [data] set together with the bikes. *)
Definition hasData (st : state) : bool :=
  (0 <? length (bikes st))%nat && bool_decide (is_Some (globalSettings st)).

End App.

(** * Vocabulary of the specification *)

(** ** Price tiers *)

(** The specification's reading of a ranged tier that covers [days]:
    [startDays] is a day count [start] with [start <= days], and [endDays] is
    either ['default'] (no upper end) or a day count not below [days]. *)
Definition covers (days : Z) (p : Tier.t) (start : Z) : Prop :=
  Tier.days p = Int start ∧ start ≤ days ∧
  match Tier.to p with
  | Int e => days ≤ e
  | Default => True
  end.

Definition ranged (days : Z) (p : Tier.t) : Prop := ∃ start, covers days p start.

(** ** Status of a date *)

(** The three keys under which the booking service reports a date. *)
Definition bookingKeys (date : Date.t) : list string :=
  [Date.format_slash date;
   Date.format_slash date +:+ "_start";
   Date.format_slash date +:+ "_end"].

(** The specification's [booked]: a truthy value under one of the keys. *)
Definition bookedOn (bookings : gmap string Js.value) (date : Date.t) : Prop :=
  ∃ k, k ∈ bookingKeys date ∧ Js.truthy (Js.get bookings k) = true.

(** The specification's [closed]: the weekday is a weekly closure day, or the
    day of the month is listed under the date's year and month. *)
Definition closedOn (gs : Settings.t) (date : Date.t) : Prop :=
  Date.getDay date ∈ Settings.closures gs ∨
  ∃ byYear byMonth,
    Settings.disabledDatesGlobal gs !! Date.yyyy date = Some byYear ∧
    byYear !! Date.toString (Date.getMonth date + 1) = Some byMonth ∧
    Date.getDate date ∈ byMonth.

(** ** Selected dates *)

(** A shown date counts for a bike when its key is selected and the bike is
    available or on half day then. *)
Definition freeOn (gs : Settings.t) (selectedDates : gset string)
    (bike : Bike.t) (date : Date.t) : Prop :=
  Date.format_dash date ∈ selectedDates ∧
  (getStatus gs bike date = Available ∨ getStatus gs bike date = Half).

(** ** Source records of the catalog *)

Section Records.

Context (imageMap : gmap string string) (isLoading : bool).

(** The source records of one catalog entry: one per key of [variantStock]
    other than ['product'], in the order of the keys, each with its
    identifier and the unit it stands for, if one can be built from it; none
    for a [null] product or one whose metafields cannot be read. *)
Definition records (entry : string * option Product.t) : list (string * option Bike.t) :=
  match entry.2 with
  | Some product =>
      match Product.newMetafields product with
      | Some (Some metafields) =>
          match Metafields.variantStock metafields with
          | Some variants =>
              (λ e : string * option VariantData.t,
                 (e.1, variantBike imageMap isLoading product metafields e.1 e.2))
                <$> List.filter (λ e, negb (String.eqb e.1 "product")) variants
          | None => []
          end
      | _ => []
      end
  | None => []
  end.

(** The units of these records. *)
Definition candidates (entry : string * option Product.t) : list Bike.t :=
  omap snd (records entry).

(** The units of all source records of the catalog, in source order. *)
Definition sourceUnits (data : exampleData) : list Bike.t :=
  flat_map candidates data.

(** A catalog every record of which a unit can be built from. *)
Definition wellFormed (data : exampleData) : Prop :=
  ∀ entry r, entry ∈ data → r ∈ records entry → is_Some r.2.

End Records.

(** The inner loop, seen from the records it visits: a record whose
    identifier is new marks the identifier as seen; its unit is added, or,
    when there is none, the loop ends. *)
Fixpoint offer (rs : list (string * option Bike.t)) (st : collected) : collected :=
  match rs with
  | [] => st
  | (variantId, r) :: rs' =>
      if bool_decide (variantId ∈ seenVariantIds st) then offer rs' st
      else
        match r with
        | Some u => offer rs' {| seenVariantIds := {[variantId]} ∪ seenVariantIds st;
                                 bikes := bikes st ++ [u] |}
        | None => {| seenVariantIds := {[variantId]} ∪ seenVariantIds st;
                     bikes := bikes st |}
        end
  end.

(** Records that carry the identifier of their unit. *)
Definition labelled (rs : list (string * option Bike.t)) : Prop :=
  ∀ variantId u, (variantId, Some u) ∈ rs → Bike.variantId u = variantId.

(** One step of the loops on a catalog without failing records, seen from
    the unit it may add. *)
Definition push (st : collected) (u : Bike.t) : collected :=
  if bool_decide (Bike.variantId u ∈ seenVariantIds st) then st
  else {| seenVariantIds := {[Bike.variantId u]} ∪ seenVariantIds st;
          bikes := bikes st ++ [u] |}.

(** The set mirrors the identifiers of the array, which are distinct. *)
Definition consistent (st : collected) : Prop :=
  (∀ vid, vid ∈ seenVariantIds st ↔ vid ∈ Bike.variantId <$> bikes st) ∧
  NoDup (Bike.variantId <$> bikes st).

(** The set holds at least the identifiers of the array, which are
    distinct. *)
Definition tidy (st : collected) : Prop :=
  (∀ vid, vid ∈ Bike.variantId <$> bikes st → vid ∈ seenVariantIds st) ∧
  NoDup (Bike.variantId <$> bikes st).

(** * Sample data *)

Module Sample.

Definition noMetafields : Metafields.t :=
  {| Metafields.stock := None; Metafields.variantStock := None;
     Metafields.closures := None; Metafields.disabledDatesGlobal := None |}.

Definition bike (variantId : string) (pricing : option (list Tier.t))
    (bookings : option (gmap string Js.value)) (isLoading : bool) : Bike.t :=
  {| Bike.handle := "yamaha-nmax155-rental"; Bike.productId := "801";
     Bike.variantId := variantId; Bike.name := "YAMAHA NMAX155";
     Bike.stock := 1; Bike.imageUrl := None; Bike.pricing := pricing;
     Bike.metafields := noMetafields;
     Bike.bookings := bookings; Bike.isLoading := isLoading |}.

Definition tier (days to : bound) (price : Z) : Tier.t :=
  {| Tier.days := days; Tier.to := to; Tier.price := num price |}.

(** The tiers of the README's example, a default tier, and a tier listed at
    a negative price. *)
Definition daily : Tier.t := tier (Int 1) (Int 6) 110.
Definition weekly : Tier.t := tier (Int 7) (Int 13) 160.
Definition biweekly : Tier.t := tier (Int 14) Default 148.
Definition fallback : Tier.t := tier Default Default 50.
Definition refund : Tier.t := tier (Int 1) (Int 6) (-5).

(** Tiers listed at decimal prices: 0.10 and 10.03 a day, 70.21 and 21 a
    week, and 27 for up to 13 days. *)
Definition decimal (days to : bound) (price : Q) : Tier.t :=
  {| Tier.days := days; Tier.to := to; Tier.price := Q2Qc price |}.
Definition dime : Tier.t := decimal Default Default (1 # 10).
Definition perDay : Tier.t := decimal Default Default (1003 # 100).
Definition perWeek : Tier.t := decimal (Int 7) Default (7021 # 100).
Definition cheapWeek : Tier.t := decimal (Int 7) Default (21 # 1).
Definition flat : Tier.t := decimal (Int 1) (Int 13) (27 # 1).

Definition priced (pricing : option (list Tier.t)) : Bike.t :=
  bike "41" pricing None true.
Definition tiered : Bike.t := priced (Some [daily; weekly; biweekly]).

(** Saturday 7 February 2026 and the two days after it. *)
Definition saturday : Date.t := Date.of_civil 2026 2 7.
Definition sunday : Date.t := Date.addDays saturday 1.
Definition monday : Date.t := Date.addDays saturday 2.

(** Closure rules: Saturdays closed as well; Monday 9 February a holiday. *)
Definition weekendClosed : Settings.t :=
  {| Settings.closures := [0; 6]; Settings.disabledDatesGlobal := ∅ |}.
Definition holidayMonday : Settings.t :=
  {| Settings.closures := [0];
     Settings.disabledDatesGlobal := {[ "2026" := {[ "2" := [9] ]} ]} |}.

Definition endOfRental : gmap string Js.value :=
  {[ "2026/02/07_end" := Js.Bool true ]}.

Definition free : Bike.t := bike "41" (Some [daily]) (Some ∅) false.
Definition rented : Bike.t := bike "42" (Some [fallback]) (Some endOfRental) false.
Definition loading : Bike.t := bike "43" (Some [daily]) None true.
Definition alsoFree : Bike.t := bike "44" (Some [daily]) (Some ∅) false.

(** Bikes at decimal prices. For 21 days [byDay] and [byWeek] cost the same
    number, 210.63; for 9 days [cheap] costs 27.000000000000004 and [fixed]
    27. *)
Definition byDay : Bike.t := bike "51" (Some [perDay]) (Some ∅) false.
Definition byWeek : Bike.t := bike "52" (Some [perWeek]) (Some ∅) false.
Definition cheap : Bike.t := bike "53" (Some [cheapWeek]) (Some ∅) false.
Definition fixed : Bike.t := bike "54" (Some [flat]) (Some ∅) false.

(** A stand-in for [localeCompare]: the order of the character codes. *)
Definition byCode (a b : string) : Z :=
  match String.compare a b with
  | Lt => -1
  | Eq => 0
  | Gt => 1
  end.

(** A catalog in which two products list the variant "v2". *)
Definition plain : VariantData.t :=
  {| VariantData.stock := None; VariantData.prices := Some [daily] |}.
Definition nmaxFields : Metafields.t :=
  {| Metafields.stock := Some "product";
     Metafields.variantStock :=
       Some [("product", Some plain); ("v1", Some plain); ("v2", Some plain)];
     Metafields.closures := Some [0; 6]; Metafields.disabledDatesGlobal := None |}.
Definition pcxFields : Metafields.t :=
  {| Metafields.stock := Some "product";
     Metafields.variantStock := Some [("v2", Some plain); ("v3", Some plain)];
     Metafields.closures := None; Metafields.disabledDatesGlobal := None |}.
Definition nmax : Product.t :=
  {| Product.handle := Some "yamaha-nmax155-rental";
     Product.id := Some "gid://shopify/Product/801";
     Product.newMetafields := Some (Some nmaxFields) |}.
Definition pcx : Product.t :=
  {| Product.handle := Some "honda-pcx-rental";
     Product.id := Some "gid://shopify/Product/802";
     Product.newMetafields := Some (Some pcxFields) |}.
Definition unreadable : Product.t :=
  {| Product.handle := Some "broken-rental";
     Product.id := Some "gid://shopify/Product/803";
     Product.newMetafields := Some None |}.
Definition catalog : exampleData :=
  [("product0", Some nmax); ("product1", None);
   ("product2", Some unreadable); ("product3", Some pcx)].

(** The units of the catalog's records. *)
Definition unit (metafields : Metafields.t) (handle productId variantId : string) : Bike.t :=
  {| Bike.handle := handle; Bike.productId := productId;
     Bike.variantId := variantId; Bike.name := bikeName handle;
     Bike.stock := 1; Bike.imageUrl := None; Bike.pricing := Some [daily];
     Bike.metafields := metafields;
     Bike.bookings := None; Bike.isLoading := true |}.
Definition nmax1 : Bike.t := unit nmaxFields "yamaha-nmax155-rental" "801" "v1".
Definition nmax2 : Bike.t := unit nmaxFields "yamaha-nmax155-rental" "801" "v2".
Definition pcx2 : Bike.t := unit pcxFields "honda-pcx-rental" "802" "v2".
Definition pcx3 : Bike.t := unit pcxFields "honda-pcx-rental" "802" "v3".

(** A catalog whose first product lists "v2" with a [null] entry, ahead of
    "v4"; the second product lists "v2" in full. *)
Definition tornFields : Metafields.t :=
  {| Metafields.stock := Some "product";
     Metafields.variantStock :=
       Some [("product", Some plain); ("v1", Some plain); ("v2", None);
             ("v4", Some plain)];
     Metafields.closures := None; Metafields.disabledDatesGlobal := None |}.
Definition torn : Product.t :=
  {| Product.handle := Some "yamaha-nmax155-rental";
     Product.id := Some "gid://shopify/Product/801";
     Product.newMetafields := Some (Some tornFields) |}.
Definition tornCatalog : exampleData :=
  [("product0", Some torn); ("product1", Some pcx)].
Definition torn1 : Bike.t := unit tornFields "yamaha-nmax155-rental" "801" "v1".
Definition torn4 : Bike.t := unit tornFields "yamaha-nmax155-rental" "801" "v4".

Definition noBookings (b : Bike.t) : option (gmap string Js.value) := Some ∅.

End Sample.

(** * Vocabulary of the further properties *)

(** The key of a date in [selectedDates]. *)
Definition dateKey (date : Date.t) : string := Date.format_dash date.

(** How often the header of the date with key [k] was clicked. *)
Definition clicksOn (k : string) (clicked : list Date.t) : nat :=
  length (filter (λ date, dateKey date = k) clicked).

(** A total preorder read off a three-way comparison of names. *)
Definition consistentCompare (localeCompare : string → string → Z) : Prop :=
  (∀ a b, localeCompare a b ≤ 0 ∨ localeCompare b a ≤ 0) ∧
  (∀ a b c, localeCompare a b ≤ 0 → localeCompare b c ≤ 0 → localeCompare a c ≤ 0).

(** A stand-in for [localeCompare] that is easy to reason about: shorter
    names first. *)
Definition byLength (a b : string) : Z :=
  Z.of_nat (String.length a) - Z.of_nat (String.length b).

(** Every character of a string satisfies [P]. *)
Fixpoint allChars (P : ascii → Prop) (s : string) : Prop :=
  match s with
  | EmptyString => True
  | String c s' => P c ∧ allChars P s'
  end.

Definition isLower (c : ascii) : Prop :=
  (97 ≤ Ascii.nat_of_ascii c ≤ 122)%nat.

(** The product with handle [h] that decides its image: the last one in the
    response that has an image. *)
Definition decidesImage (h : string) (p : Shopify.product) : bool :=
  bool_decide (Shopify.handle p = h) &&
  match Shopify.images p with
  | Some (_ :: _) => true
  | _ => false
  end.

(** The bikes of a state whose bookings have arrived. *)
Definition arrived (l : list Bike.t) : list Bike.t :=
  filter (λ bike, Bike.isLoading bike = false) l.

(** The status the closure rules alone give a date. *)
Definition statusByCalendar (gs : Settings.t) (date : Date.t) : status :=
  if isStoreClosed gs date then Closed
  else if isHalfDay date then Half
  else Available.

(** Two units that stand for the same variant of the same product: they
    agree on everything but the image and the loading flag. *)
Definition sameVariant (a b : Bike.t) : Prop :=
  Bike.handle a = Bike.handle b ∧ Bike.productId a = Bike.productId b ∧
  Bike.variantId a = Bike.variantId b ∧ Bike.name a = Bike.name b ∧
  Bike.stock a = Bike.stock b ∧ Bike.pricing a = Bike.pricing b ∧
  Bike.metafields a = Bike.metafields b ∧ Bike.bookings a = Bike.bookings b.

(** The same, with the same image. *)
Definition sameButLoading (a b : Bike.t) : Prop :=
  sameVariant a b ∧ Bike.imageUrl a = Bike.imageUrl b.

(** Refute a specification predicate at concrete data by evaluating the code
    it reflects. *)
Ltac refute_with reflection :=
  let H := fresh "H" in
  intros H; apply reflection in H; vm_compute in H; discriminate H.

(** * Properties *)

(** ** Price tiers *)

Lemma tierApplies_covers days p :
  tierApplies days p = true ↔ ranged days p.
Proof.
  unfold tierApplies, ranged, covers.
  destruct (Tier.days p) as [from|]; simpl;
    [|split; [done | intros (? & ? & _); done]].
  destruct (Tier.to p) as [e|]; simpl.
  - rewrite andb_true_iff, Z.geb_le, Z.leb_le. split.
    + intros [? ?]. by exists from.
    + intros (s & [= <-] & ? & ?). done.
  - rewrite andb_true_r, Z.geb_le. split.
    + intros ?. by exists from.
    + intros (s & [= <-] & ? & _). done.
Qed.

Lemma tierApplies_false days p :
  tierApplies days p = false ↔ ¬ ranged days p.
Proof. rewrite <- tierApplies_covers. by destruct (tierApplies days p). Qed.

Lemma find_first {A} (f : A → bool) pre x post :
  (∀ y, y ∈ pre → f y = false) → f x = true →
  List.find f (pre ++ x :: post) = Some x.
Proof.
  intros Hpre Hx. induction pre as [|y pre IH]; simpl.
  - by rewrite Hx.
  - rewrite (Hpre y) by apply list_elem_of_here.
    apply IH. intros z Hz. apply Hpre. by apply list_elem_of_further.
Qed.

Lemma find_none {A} (f : A → bool) l :
  (∀ y, y ∈ l → f y = false) → List.find f l = None.
Proof.
  induction l as [|y l IH]; intros Hl; simpl; [done|].
  rewrite (Hl y) by apply list_elem_of_here.
  apply IH. intros z Hz. apply Hl. by apply list_elem_of_further.
Qed.

(** What [getPriceForDuration] computes once [bike.pricing] is an array. *)
Lemma price_of_tiers bike pricing days :
  Bike.pricing bike = Some pricing →
  Double.getPriceForDuration bike days =
    match List.find (tierApplies days) pricing with
    | Some t =>
        if Js.atLeast (parseInt (Tier.days t)) 7
        then Double.mul (Double.parseFloat (Tier.price t))
               (Double.div (Double.num days) (Double.num 7))
        else Double.parseFloat (Tier.price t)
    | None =>
        match List.find isDefaultTier pricing with
        | Some d => Double.mul (Double.parseFloat (Tier.price d)) (Double.num days)
        | None => Double.zero
        end
    end.
Proof.
  intros H. unfold Double.getPriceForDuration. rewrite H. by destruct pricing.
Qed.

(** C1: with a non-empty tier list, the price comes from the first tier, in
    sequence order, that is ranged and covers the duration. For a tier
    starting at 7 days or more it is the product of the tier's price and the
    quotient of the duration by 7, both taken in the arithmetic of numbers
    (binary64, every operation rounded to the nearest number): the quotient
    is not the integer one. For a tier starting below 7 days it is the
    tier's price as listed. *)
Theorem price_from_first_covering_tier bike pre t post start days :
  1 ≤ days →
  Bike.pricing bike = Some (pre ++ t :: post) →
  (∀ p, p ∈ pre → ¬ ranged days p) →
  covers days t start →
  (7 ≤ start →
   Double.getPriceForDuration bike days =
     Double.mul (Double.parseFloat (Tier.price t))
       (Double.div (Double.num days) (Double.num 7))) ∧
  (start < 7 →
   Double.getPriceForDuration bike days = Double.parseFloat (Tier.price t)).
Proof.
  intros _ Hpricing Hpre Ht.
  rewrite (price_of_tiers _ _ _ Hpricing).
  rewrite (find_first (tierApplies days) pre t post).
  - destruct Ht as (Hstart & _ & _). rewrite Hstart. simpl.
    split; intros Hs.
    + by replace (start >=? 7) with true by (symmetry; apply Z.geb_le; lia).
    + replace (start >=? 7) with false; [done|].
      symmetry. apply not_true_is_false. rewrite Z.geb_le. lia.
  - intros p Hp. apply tierApplies_false. by apply Hpre.
  - apply tierApplies_covers. by exists start.
Qed.

(** Ten days at 160 a week: 160 times the number nearest to 10/7, which is
    8042142191733029 / 2^45, a little under 228.58; three days in the tier
    of 1 to 6 days: 110. *)
Lemma price_from_first_covering_tier_witness :
  Double.getPriceForDuration Sample.tiered 10 =
    Double.mul (Double.parseFloat (num 160)) (Double.div (Double.num 10) (Double.num 7)) ∧
  Double.getPriceForDuration (Sample.priced (Some [Sample.daily])) 3 =
    Double.parseFloat (num 110).
Proof.
  split.
  - apply (price_from_first_covering_tier Sample.tiered
             [Sample.daily] Sample.weekly [Sample.biweekly] 7 10).
    + lia.
    + reflexivity.
    + intros p ->%list_elem_of_singleton. apply tierApplies_false. reflexivity.
    + unfold covers; simpl; repeat split; first [reflexivity | lia].
    + lia.
  - apply (price_from_first_covering_tier (Sample.priced (Some [Sample.daily]))
             [] Sample.daily [] 1 3).
    + lia.
    + reflexivity.
    + intros p Hp. by apply not_elem_of_nil in Hp.
    + unfold covers; simpl; repeat split; first [reflexivity | lia].
    + lia.
Defined.

(** C5: when no ranged tier covers the duration, the first ['default'] tier
    prices the rental at the product, in the arithmetic of numbers, of its
    price and the number of days; with no covering tier and no default tier,
    or with a missing or empty tier list, the price is 0. The function is
    total: it returns a number on every input. *)
Theorem price_fallback bike days :
  1 ≤ days →
  (∀ pre d post,
     Bike.pricing bike = Some (pre ++ d :: post) →
     (∀ p, p ∈ pre ++ d :: post → ¬ ranged days p) →
     (∀ p, p ∈ pre → Tier.days p ≠ Default) →
     Tier.days d = Default →
     Double.getPriceForDuration bike days =
       Double.mul (Double.parseFloat (Tier.price d)) (Double.num days)) ∧
  (∀ pricing,
     Bike.pricing bike = Some pricing →
     (∀ p, p ∈ pricing → ¬ ranged days p) →
     (∀ p, p ∈ pricing → Tier.days p ≠ Default) →
     Double.getPriceForDuration bike days = Double.zero) ∧
  (Bike.pricing bike = None ∨ Bike.pricing bike = Some [] →
     Double.getPriceForDuration bike days = Double.zero).
Proof.
  intros _. repeat split.
  - intros pre d post Hpricing Hnone Hpre Hd.
    rewrite (price_of_tiers _ _ _ Hpricing).
    rewrite find_none.
    + rewrite (find_first isDefaultTier pre d post); [done| |].
      * intros p Hp. apply bool_decide_eq_false. by apply Hpre.
      * by apply bool_decide_eq_true.
    + intros p Hp. apply tierApplies_false. by apply Hnone.
  - intros pricing Hpricing Hnone Hdef.
    rewrite (price_of_tiers _ _ _ Hpricing).
    rewrite find_none.
    + rewrite find_none; [done|].
      intros p Hp. apply bool_decide_eq_false. by apply Hdef.
    + intros p Hp. apply tierApplies_false. by apply Hnone.
  - intros [H|H]; unfold Double.getPriceForDuration; by rewrite H.
Qed.

Lemma price_fallback_witness :
  Double.getPriceForDuration (Sample.priced (Some [Sample.biweekly; Sample.fallback])) 3 =
    Double.mul (Double.parseFloat (num 50)) (Double.num 3) ∧
  Double.getPriceForDuration (Sample.priced (Some [Sample.biweekly])) 3 = Double.zero ∧
  Double.getPriceForDuration (Sample.priced None) 3 = Double.zero.
Proof.
  assert (H3 : 1 ≤ 3) by lia.
  split; [|split].
  - apply (proj1 (price_fallback
                    (Sample.priced (Some [Sample.biweekly; Sample.fallback])) 3 H3)
             [Sample.biweekly] Sample.fallback []).
    + reflexivity.
    + intros p Hp. apply tierApplies_false.
      apply elem_of_cons in Hp as [->|Hp]; [reflexivity|].
      apply list_elem_of_singleton in Hp as ->. reflexivity.
    + intros p ->%list_elem_of_singleton. discriminate.
    + reflexivity.
  - apply (proj1 (proj2 (price_fallback (Sample.priced (Some [Sample.biweekly])) 3 H3)) [Sample.biweekly]).
    + reflexivity.
    + intros p ->%list_elem_of_singleton. apply tierApplies_false. reflexivity.
    + intros p ->%list_elem_of_singleton. discriminate.
  - apply (proj2 (proj2 (price_fallback (Sample.priced None) 3 H3))). by left.
Defined.

(** ** The sign of the price the tiers stand for *)







(** ** Status of a date *)

Lemma truthy_or a b : Js.truthy (Js.or a b) = Js.truthy a || Js.truthy b.
Proof. unfold Js.or. by destruct (Js.truthy a) eqn:Ha; rewrite ?Ha. Qed.

Lemma isBooked_bookedOn bookings date :
  Js.truthy (isBooked bookings date) = true ↔ bookedOn bookings date.
Proof.
  unfold isBooked, bookedOn, bookingKeys.
  rewrite !truthy_or, !orb_true_iff. split.
  - intros [[H|H]|H]; eexists; (split; [|exact H]); set_solver.
  - intros (k & Hk & H).
    rewrite !elem_of_cons, elem_of_nil in Hk.
    destruct Hk as [->|[->|[->|[]]]]; tauto.
Qed.

Lemma includes_elem_of l x : includes l x = true ↔ x ∈ l.
Proof. unfold includes. by rewrite bool_decide_eq_true. Qed.

Lemma isStoreClosed_closedOn gs date :
  isStoreClosed gs date = true ↔ closedOn gs date.
Proof.
  unfold isStoreClosed, closedOn, isHoliday.
  rewrite orb_true_iff, includes_elem_of.
  apply or_iff_compat_l.
  destruct (Settings.disabledDatesGlobal gs !! Date.yyyy date) as [byYear|]; simpl.
  - destruct (byYear !! Date.toString (Date.getMonth date + 1))
      as [byMonth|] eqn:Hm; simpl.
    + rewrite includes_elem_of. split.
      * intros H. by exists byYear, byMonth.
      * intros (? & ? & [= <-] & Hm' & H). congruence.
    + split; [done|]. intros (? & ? & [= <-] & Hm' & _). congruence.
  - split; [done|]. by intros (? & ? & ? & _).
Qed.

(** What [getStatus] computes once the booking data has arrived. *)
Lemma getStatus_loaded gs bike bookings date :
  Bike.isLoading bike = false → Bike.bookings bike = Some bookings →
  getStatus gs bike date =
    if Js.truthy (isBooked bookings date) then Booked
    else if isStoreClosed gs date then Closed
    else if isHalfDay date then Half
    else Available.
Proof. intros Hl Hb. unfold getStatus. by rewrite Hl, Hb. Qed.

(** C2: once the booking data is present the status is decided in the order
    booked, closed, half, available: booked whenever a booking is reported;
    closed when not booked and the day is a weekly closure day or a listed
    holiday; half when neither and the weekday is Saturday (6); available
    otherwise. *)
Theorem getStatus_precedence gs bike bookings date :
  Bike.isLoading bike = false → Bike.bookings bike = Some bookings →
  (getStatus gs bike date = Booked ↔ bookedOn bookings date) ∧
  (getStatus gs bike date = Closed ↔
     ¬ bookedOn bookings date ∧ closedOn gs date) ∧
  (getStatus gs bike date = Half ↔
     ¬ bookedOn bookings date ∧ ¬ closedOn gs date ∧ Date.getDay date = 6) ∧
  (getStatus gs bike date = Available ↔
     ¬ bookedOn bookings date ∧ ¬ closedOn gs date ∧ Date.getDay date ≠ 6) ∧
  getStatus gs bike date ≠ Loading.
Proof.
  intros Hl Hb. rewrite (getStatus_loaded _ _ _ _ Hl Hb).
  rewrite <- isBooked_bookedOn, <- isStoreClosed_closedOn.
  unfold isHalfDay.
  destruct (Js.truthy (isBooked bookings date));
    [|destruct (isStoreClosed gs date);
      [|destruct (Z.eqb_spec (Date.getDay date) 6)]];
    repeat split; try done; try tauto; intros (? & ? & ?); done.
Qed.

Lemma getStatus_precedence_witness :
  getStatus defaultSettings Sample.free Sample.saturday = Half ∧
  getStatus Sample.holidayMonday Sample.free Sample.monday = Closed ∧
  getStatus Sample.holidayMonday Sample.free (Date.addDays Sample.monday 1) = Available.
Proof.
  split; [|split].
  - apply (proj1 (proj2 (proj2
      (getStatus_precedence defaultSettings Sample.free ∅ Sample.saturday
         eq_refl eq_refl)))).
    split; [|split].
    + refute_with isBooked_bookedOn.
    + refute_with isStoreClosed_closedOn.
    + reflexivity.
  - apply (proj1 (proj2
      (getStatus_precedence Sample.holidayMonday Sample.free ∅ Sample.monday
         eq_refl eq_refl))).
    split.
    + refute_with isBooked_bookedOn.
    + apply isStoreClosed_closedOn. reflexivity.
  - apply (proj1 (proj2 (proj2 (proj2
      (getStatus_precedence Sample.holidayMonday Sample.free ∅
         (Date.addDays Sample.monday 1) eq_refl eq_refl))))).
    split; [|split].
    + refute_with isBooked_bookedOn.
    + refute_with isStoreClosed_closedOn.
    + intros H. vm_compute in H. discriminate H.
Defined.

(** C3: while a bike is loading, or has no booking data at all, every date
    is reported as loading (the specification's pending), whatever the
    booking map holds. *)
Theorem getStatus_pending gs bike date :
  Bike.isLoading bike = true ∨ Bike.bookings bike = None →
  getStatus gs bike date = Loading.
Proof.
  intros [Hloading|Habsent]; unfold getStatus.
  - by rewrite Hloading.
  - rewrite Habsent. by destruct (Bike.isLoading bike).
Qed.

Lemma getStatus_pending_witness :
  getStatus Sample.weekendClosed Sample.loading Sample.saturday = Loading ∧
  getStatus defaultSettings
    (Sample.bike "45" None (Some Sample.endOfRental) true) Sample.saturday = Loading.
Proof.
  split.
  - apply (getStatus_pending Sample.weekendClosed Sample.loading Sample.saturday).
    right. reflexivity.
  - apply (getStatus_pending defaultSettings
             (Sample.bike "45" None (Some Sample.endOfRental) true) Sample.saturday).
    left. reflexivity.
Defined.

(** C4: a truthy value under any of the keys [yyyy/MM/dd],
    [yyyy/MM/dd_start], [yyyy/MM/dd_end] makes the date booked, whatever the
    closure rules and the weekday say. *)
Theorem getStatus_booked gs bike bookings date k :
  Bike.isLoading bike = false → Bike.bookings bike = Some bookings →
  k ∈ bookingKeys date → Js.truthy (Js.get bookings k) = true →
  getStatus gs bike date = Booked.
Proof.
  intros Hl Hb Hk Ht. rewrite (getStatus_loaded _ _ _ _ Hl Hb).
  replace (Js.truthy (isBooked bookings date)) with true; [done|].
  symmetry. apply isBooked_bookedOn. by exists k.
Qed.

(** The specification's example: a rental that ends on a Saturday on which
    the shop is closed. *)
Lemma getStatus_booked_witness :
  Date.getDay Sample.saturday = 6 ∧
  getStatus Sample.weekendClosed Sample.rented Sample.saturday = Booked.
Proof.
  split; [reflexivity|].
  apply (getStatus_booked Sample.weekendClosed Sample.rented Sample.endOfRental
           Sample.saturday "2026/02/07_end" eq_refl eq_refl).
  - vm_compute. do 2 apply list_elem_of_further. apply list_elem_of_here.
  - reflexivity.
Defined.

(** The first revision of [getStatus] agrees with the current one on every
    bike whose bookings have arrived. *)
Lemma getStatus_legacy_loaded gs bike bookings date :
  Bike.isLoading bike = false → Bike.bookings bike = Some bookings →
  getStatus_legacy gs bike date = getStatus gs bike date.
Proof.
  intros Hl Hb. rewrite (getStatus_loaded _ _ _ _ Hl Hb).
  unfold getStatus_legacy. by rewrite Hb.
Qed.

(** ** Numbers *)

Lemma digits2_pos_le p : 2 ^ (Z.pos (digits2_pos p) - 1) ≤ Z.pos p.
Proof.
  assert (digits2_pos p = Pos.size p) as ->.
  { induction p; simpl; congruence. }
  assert (Z.pos (2 ^ Pos.size p) ≤ Z.pos p~0) as H by exact (Pos.size_le p).
  rewrite Pos2Z.inj_pow in H.
  replace (Z.pos (Pos.size p)) with (Z.succ (Z.pos (Pos.size p) - 1)) in H by lia.
  rewrite Z.pow_succ_r in H by lia. lia.
Qed.

(** Shifting a mantissa to the right halves it. *)
Lemma shr_1_m mrs : 0 ≤ shr_m mrs → shr_m (shr_1 mrs) = shr_m mrs / 2.
Proof.
  destruct mrs as [m r s]. simpl. intros Hm.
  destruct m as [|[p|p|]|p]; simpl; try done.
  - change (Z.pos p~1) with (2 * Z.pos p + 1).
    apply (Z.div_unique _ _ _ 1); lia.
  - change (Z.pos p~0) with (2 * Z.pos p).
    apply (Z.div_unique _ _ _ 0); lia.
Qed.

Lemma iter_pos_shr_1_m k mrs :
  0 ≤ shr_m mrs → shr_m (SpecFloat.iter_pos shr_1 k mrs) = shr_m mrs / 2 ^ Z.pos k.
Proof.
  revert mrs. induction k as [k IH|k IH|]; intros mrs Hm; simpl.
  - assert (0 ≤ shr_m (shr_1 mrs)) as H1.
    { rewrite shr_1_m by done. apply Z.div_pos; lia. }
    assert (0 ≤ shr_m (SpecFloat.iter_pos shr_1 k (shr_1 mrs))) as H2.
    { rewrite IH by done. apply Z.div_pos; lia. }
    rewrite IH, IH, shr_1_m by done.
    rewrite !Z.div_div by lia. f_equal.
    rewrite Pos2Z.inj_xI, <- !Z.pow_add_r by lia.
    replace (2 * Z.pos k + 1) with (1 + Z.pos k + Z.pos k) by lia.
    rewrite !Z.pow_add_r by lia. lia.
  - assert (0 ≤ shr_m (SpecFloat.iter_pos shr_1 k mrs)) as H2.
    { rewrite IH by done. apply Z.div_pos; lia. }
    rewrite IH, IH by done.
    rewrite !Z.div_div by lia. f_equal.
    rewrite Pos2Z.inj_xO, <- !Z.pow_add_r by lia. f_equal. lia.
  - by rewrite shr_1_m.
Qed.

Lemma shr_record_of_loc_m m l : shr_m (shr_record_of_loc m l) = m.
Proof. by destruct l as [|[| |]]. Qed.

(** Rounding to the format never takes an exponent below [emin] ... *)
Lemma shr_fexp_exponent m e l : Double.emin ≤ (shr_fexp Double.prec Double.emax m e l).2.
Proof.
  unfold shr_fexp, shr.
  assert (Double.emin ≤ fexp Double.prec Double.emax (Zdigits2 m + e)) as Hf by apply Z.le_max_r.
  destruct (fexp Double.prec Double.emax (Zdigits2 m + e) - e) eqn:Hk; simpl; lia.
Qed.

(** ... and keeps a positive mantissa positive when the exponent is not
    below [emin] to begin with. *)
Lemma shr_fexp_pos m e l :
  0 < m → Double.emin ≤ e → 0 < shr_m (shr_fexp Double.prec Double.emax m e l).1.
Proof.
  intros Hm He. unfold shr_fexp, shr.
  destruct m as [|p|p]; try done. simpl Zdigits2.
  pose proof (digits2_pos_le p) as Hd.
  set (d := Z.pos (digits2_pos p)) in *.
  assert (fexp Double.prec Double.emax (d + e) = Z.max (d + e - 53) Double.emin) as Hf by done.
  destruct (fexp Double.prec Double.emax (d + e) - e) as [|k|k] eqn:Hk; simpl;
    rewrite ?shr_record_of_loc_m; try lia.
  rewrite iter_pos_shr_1_m by (rewrite shr_record_of_loc_m; lia).
  rewrite shr_record_of_loc_m.
  apply Z.div_str_pos. split; [lia|].
  etrans; [|exact Hd]. apply Z.pow_le_mono_r; lia.
Qed.

Lemma round_nearest_even_pos m l : 0 < m → 0 < round_nearest_even m l.
Proof.
  intros Hm. destruct l as [|[| |]]; simpl; try lia. destruct (Z.even m); lia.
Qed.

Lemma binary_round_aux_representable s m e l :
  Double.representable (binary_round_aux Double.prec Double.emax s m e l).
Proof.
  unfold binary_round_aux.
  destruct (shr_fexp Double.prec Double.emax m e l) as [mrs' e'].
  pose proof (shr_fexp_exponent
                (round_nearest_even (shr_m mrs') (loc_of_shr_record mrs')) e'
                loc_Exact) as He.
  destruct (shr_fexp Double.prec Double.emax _ e' loc_Exact) as [mrs'' e'']. simpl in He.
  destruct (shr_m mrs''); try done. by destruct (e'' <=? _).
Qed.

(** A positive mantissa rounds to a number of the sign asked for: neither 0
    nor NaN. *)
Lemma binary_round_aux_pos s m e l :
  0 < m → Double.emin ≤ e →
  ∃ m' e', binary_round_aux Double.prec Double.emax s m e l = S754_finite s m' e' ∨
           binary_round_aux Double.prec Double.emax s m e l = S754_infinity s.
Proof.
  intros Hm He. unfold binary_round_aux.
  pose proof (shr_fexp_pos m e l Hm He) as H1.
  pose proof (shr_fexp_exponent m e l) as H1e.
  destruct (shr_fexp Double.prec Double.emax m e l) as [mrs' e']. simpl in H1, H1e.
  pose proof (shr_fexp_pos _ e' loc_Exact
                (round_nearest_even_pos _ (loc_of_shr_record mrs') H1) H1e) as H2.
  destruct (shr_fexp Double.prec Double.emax _ e' loc_Exact) as [mrs'' e'']. simpl in H2.
  destruct (shr_m mrs'') as [|p|p]; try done.
  exists p, e''. destruct (e'' <=? _); auto.
Qed.

Lemma binary_round_pos s m e :
  Double.emin ≤ e →
  ∃ m' e', binary_round Double.prec Double.emax s m e = S754_finite s m' e' ∨
           binary_round Double.prec Double.emax s m e = S754_infinity s.
Proof.
  intros He. unfold binary_round.
  destruct (shl_align m e _) as [mz ez] eqn:Hal.
  apply binary_round_aux_pos; [done|].
  unfold shl_align in Hal.
  assert (Double.emin ≤ fexp Double.prec Double.emax (Z.pos (digits2_pos m) + e)) as Hf
    by apply Z.le_max_r.
  destruct (_ - e); injection Hal as <- <-; done.
Qed.

(** The sign test on the number that holds the integer [m * 2^e]. *)
Lemma binary_normalize_sign m e :
  Double.emin ≤ e → Double.nonPositive (binary_normalize Double.prec Double.emax m e false) = true ↔ m ≤ 0.
Proof.
  intros He. unfold binary_normalize. destruct m as [|p|p].
  - done.
  - destruct (binary_round_pos false p e He) as (m' & e' & [-> | ->]);
      (split; intros H; first [done | lia]).
  - destruct (binary_round_pos true p e He) as (m' & e' & [-> | ->]);
      (split; intros H; first [done | lia]).
Qed.

Lemma nonPositive_num z : Double.nonPositive (Double.num z) = true ↔ z ≤ 0.
Proof. by apply binary_normalize_sign. Qed.

(** Numbers that are equal as numbers have the same digits. *)
Lemma eqb_finite s1 m1 e1 s2 m2 e2 :
  Double.eqb (S754_finite s1 m1 e1) (S754_finite s2 m2 e2) = true →
  s1 = s2 ∧ m1 = m2 ∧ e1 = e2.
Proof.
  unfold Double.eqb, SFeqb, SFcompare. intros H.
  assert (s1 = s2 ∧ (e1 ?= e2) = Eq ∧ Pos.compare_cont Eq m1 m2 = Eq)
    as (-> & He & Hm).
  { destruct s1, s2; try done;
      destruct (e1 ?= e2); try done;
      destruct (Pos.compare_cont Eq m1 m2); done. }
  apply Z.compare_eq in He. apply Pos.compare_eq in Hm. done.
Qed.

(** The difference of two numbers that are equal to a third is not
    positive. *)
Lemma sub_tie a b p :
  Double.eqb a p = true → Double.eqb b p = true → Double.nonPositive (Double.sub a b) = true.
Proof.
  intros Ha Hb.
  destruct a as [[]|[]| |sa ma ea], b as [[]|[]| |sb mb eb],
    p as [[]|[]| |sp mp ep]; try done;
    try (by destruct sa); try (by destruct sb);
    try (by destruct sa, sp); try (by destruct sb, sp).
  apply eqb_finite in Ha as (-> & -> & ->), Hb as (-> & -> & ->).
  unfold Double.sub, SFsub. by rewrite Z.sub_diag.
Qed.

Lemma iter_xO m d : Z.pos (Pos.iter xO m d) = Z.pos m * 2 ^ Z.pos d.
Proof.
  revert m. induction d as [|d IH] using Pos.peano_ind; intros m.
  - simpl. lia.
  - rewrite Pos.iter_succ, Pos2Z.inj_xO, IH, Pos2Z.inj_succ, Z.pow_succ_r by lia.
    lia.
Qed.

Lemma shl_align_value m e ez :
  ez ≤ e → Z.pos (shl_align m e ez).1 = Z.pos m * 2 ^ (e - ez).
Proof.
  intros He. unfold shl_align.
  destruct (ez - e) as [|d|d] eqn:Hd; simpl.
  - replace (e - ez) with 0 by lia. lia.
  - lia.
  - rewrite iter_xO. f_equal. f_equal. lia.
Qed.

Lemma scaled_pos m e : Double.emin ≤ e → 0 < Z.pos m * 2 ^ (e - Double.emin).
Proof. intros He. pose proof (Z.pow_pos_nonneg 2 (e - Double.emin)). lia. Qed.

(** The sign of a difference is the order of the values. *)
Lemma sub_sign a b :
  Double.isNaN a = false → Double.isNaN b = false → Double.representable a → Double.representable b →
  Double.nonPositive (Double.sub a b) = true ↔ Double.rank_le (Double.rank a) (Double.rank b).
Proof.
  intros Ha Hb Ra Rb. unfold Double.rank_le.
  destruct a as [sa|sa| |sa ma ea]; try done;
    destruct b as [sb|sb| |sb mb eb]; try done; simpl in Ra, Rb.
  - destruct sa, sb; simpl; (split; [intros _; lia|done]).
  - destruct sb; simpl; (split; [try done; intros _; lia|try done; intros Hr; lia]).
  - pose proof (scaled_pos mb eb Rb) as Hpos.
    destruct sb; simpl; (split; [try done; intros _; lia|try done; intros Hr; lia]).
  - destruct sa; simpl; (split; [try done; intros _; lia|try done; intros Hr; lia]).
  - destruct sa, sb; simpl;
      (split; [try done; intros _; lia|try done; intros Hr; lia]).
  - destruct sa; simpl; (split; [try done; intros _; lia|try done; intros Hr; lia]).
  - pose proof (scaled_pos ma ea Ra) as Hpos.
    destruct sa; simpl; (split; [try done; intros _; lia|try done; intros Hr; lia]).
  - destruct sb; simpl; (split; [try done; intros _; lia|try done; intros Hr; lia]).
  - unfold Double.sub, SFsub.
    set (ez := Z.min ea eb).
    rewrite binary_normalize_sign by (unfold ez; lia).
    rewrite (shl_align_value ma ea ez), (shl_align_value mb eb ez) by (unfold ez; lia).
    cbn [Double.rank Double.scaled fst snd].
    assert (∀ m e, ez ≤ e →
              Z.pos m * 2 ^ (e - Double.emin) = Z.pos m * 2 ^ (e - ez) * 2 ^ (ez - Double.emin))
      as Hsplit.
    { intros m e He. rewrite <- Z.mul_assoc, <- Z.pow_add_r by (unfold ez in *; lia).
      do 2 f_equal. lia. }
    rewrite (Hsplit ma ea), (Hsplit mb eb) by (unfold ez; lia).
    assert (0 < 2 ^ (ez - Double.emin)) as Hp
      by (apply Z.pow_pos_nonneg; unfold ez; lia).
    generalize dependent (2 ^ (ez - Double.emin)). intros k _ Hk.
    generalize (Z.pos ma * 2 ^ (ea - ez)) (Z.pos mb * 2 ^ (eb - ez)).
    intros A B. destruct sa, sb; simpl; nia.
Qed.

Lemma rank_le_total a b : Double.rank_le a b ∨ Double.rank_le b a.
Proof. unfold Double.rank_le. lia. Qed.

Lemma rank_le_trans a b c : Double.rank_le a b → Double.rank_le b c → Double.rank_le a c.
Proof. unfold Double.rank_le. lia. Qed.

(** Whatever [parseFloat] and the product return is representable, and so
    is every price. *)
Lemma parseFloat_representable q : Double.representable (Double.parseFloat q).
Proof.
  unfold Double.parseFloat. destruct (Qnum q); [done| |]; simpl;
    destruct (SFdiv_core_binary _ _ _ _ _ _) as [[mz ez] lz];
    apply binary_round_aux_representable.
Qed.

Lemma mul_representable a b : Double.representable (Double.mul a b).
Proof.
  destruct a, b; try done. apply binary_round_aux_representable.
Qed.

Lemma price_representable bike days :
  Double.representable (Double.getPriceForDuration bike days).
Proof.
  unfold Double.getPriceForDuration.
  destruct (Bike.pricing bike) as [[|p pricing]|]; try done.
  destruct (List.find (tierApplies days) (p :: pricing)) as [t|].
  - destruct (Js.atLeast _ 7);
      [apply mul_representable|apply parseFloat_representable].
  - destruct (List.find isDefaultTier (p :: pricing)); [|done].
    apply mul_representable.
Qed.

(** ** Filtering and sorting the rows *)

Section Sort.

Context {A : Type} (comparefn : A → A → Double.t).

Lemma sortInsert_Permutation x l : sortInsert comparefn x l ≡ₚ x :: l.
Proof.
  induction l as [|y l IH]; simpl; [done|].
  destruct (Double.nonPositive (comparefn x y)); [done|].
  rewrite IH. apply Permutation_swap.
Qed.

Lemma sort_Permutation l : sort comparefn l ≡ₚ l.
Proof.
  induction l as [|x l IH]; simpl; [done|].
  by rewrite sortInsert_Permutation, IH.
Qed.

(** Stability: elements the comparator does not separate keep their order.
    [P] picks a class of elements no member of which is placed after
    another by the comparator. *)
Lemma sortInsert_filter (Q P : A → Prop) `{!∀ x, Decision (P x)} x l :
  Q x → Forall Q l →
  (∀ a b, Q a → Q b → P a → P b → Double.nonPositive (comparefn a b) = true) →
  filter P (sortInsert comparefn x l) = filter P (x :: l).
Proof.
  intros Hqx Hql HP. induction Hql as [|y l Hqy Hql IH]; simpl; [done|].
  destruct (Double.nonPositive (comparefn x y)) eqn:Hxy; [done|].
  rewrite (filter_cons P y), IH, !(filter_cons P x), (filter_cons P y).
  destruct (decide (P x)) as [Hx|Hx], (decide (P y)) as [Hy|Hy]; try done.
  rewrite (HP x y Hqx Hqy Hx Hy) in Hxy. done.
Qed.

Lemma sort_filter_among (Q P : A → Prop) `{!∀ x, Decision (P x)} l :
  Forall Q l →
  (∀ a b, Q a → Q b → P a → P b → Double.nonPositive (comparefn a b) = true) →
  filter P (sort comparefn l) = filter P l.
Proof.
  intros Hql HP. induction Hql as [|x l Hqx Hql IH]; [done|].
  change (sort comparefn (x :: l)) with (sortInsert comparefn x (sort comparefn l)).
  rewrite (sortInsert_filter Q) by (try done; by rewrite sort_Permutation).
  by rewrite !filter_cons, IH.
Qed.

Lemma sort_filter (P : A → Prop) `{!∀ x, Decision (P x)} l :
  (∀ a b, P a → P b → Double.nonPositive (comparefn a b) = true) →
  filter P (sort comparefn l) = filter P l.
Proof.
  intros HP. apply (sort_filter_among (λ _, True)); [by apply Forall_forall|].
  intros a b _ _. apply HP.
Qed.

(** Order: when the comparator is total and transitive on the elements of
    the list, which [Q] holds of, the result is sorted. *)
Lemma sort_StronglySorted (Q : A → Prop) (R : A → A → Prop) l :
  Forall Q l →
  (∀ a b, Q a → Q b → Double.nonPositive (comparefn a b) = true ↔ R a b) →
  (∀ a b, Q a → Q b → R a b ∨ R b a) →
  (∀ a b c, Q a → Q b → Q c → R a b → R b c → R a c) →
  StronglySorted R (sort comparefn l).
Proof.
  intros HQ Hcmp Htotal Htrans.
  induction HQ as [|x l Hx HQ IH]; simpl; [constructor|].
  fold (sort comparefn l).
  assert (Forall Q (sort comparefn l)) as HQs by by rewrite sort_Permutation.
  revert IH HQs. generalize (sort comparefn l) as s. clear l HQ.
  induction s as [|y s IH]; intros Hs HQs; simpl.
  - repeat constructor.
  - apply StronglySorted_inv in Hs as [Hs Hy].
    apply Forall_cons in HQs as [Hqy HQs].
    destruct (Double.nonPositive (comparefn x y)) eqn:Hxy.
    + apply Hcmp in Hxy; [|done..]. constructor; [by constructor|].
      constructor; [done|].
      apply Forall_forall. intros z Hz.
      apply (Htrans x y z); try done.
      * by apply (proj1 (Forall_forall _ _) HQs).
      * by apply (proj1 (Forall_forall _ _) Hy).
    + constructor; [by apply IH|].
      rewrite sortInsert_Permutation. constructor; [|done].
      destruct (Htotal x y Hx Hqy) as [H|H]; [|done].
      apply Hcmp in H; [|done..]. congruence.
Qed.

(** Order and stability leave no choice: two arrangements of the same
    elements that are both ordered by a key and agree on the order of the
    elements of every key are the same list. *)
Lemma stable_sorted_unique {K} `{EqDecision K} (key : A → K) (le : K → K → Prop) l1 l2 :
  (∀ j k, le j k → le k j → j = k) →
  l1 ≡ₚ l2 →
  StronglySorted (λ a b, le (key a) (key b)) l1 →
  StronglySorted (λ a b, le (key a) (key b)) l2 →
  (∀ k, filter (λ a, key a = k) l1 = filter (λ a, key a = k) l2) →
  l1 = l2.
Proof.
  intros Hanti. revert l2.
  induction l1 as [|x l1 IH]; intros l2 Hperm Hs1 Hs2 Hst.
  - by apply Permutation_nil_l in Hperm.
  - destruct l2 as [|y l2]; [by apply Permutation_nil_r in Hperm|].
    apply StronglySorted_inv in Hs1 as [Hs1 Hx], Hs2 as [Hs2 Hy].
    assert (key x = key y) as Hkey.
    { assert (x ∈ y :: l2) as Hxin by (rewrite <- Hperm; apply list_elem_of_here).
      assert (y ∈ x :: l1) as Hyin by (rewrite Hperm; apply list_elem_of_here).
      apply elem_of_cons in Hxin as [->|Hxin]; [done|].
      apply elem_of_cons in Hyin as [->|Hyin]; [done|].
      apply Hanti.
      - by apply (proj1 (Forall_forall _ _) Hx).
      - by apply (proj1 (Forall_forall _ _) Hy). }
    pose proof (Hst (key x)) as Hhead.
    rewrite !filter_cons, decide_True in Hhead by done.
    rewrite decide_True in Hhead by done.
    injection Hhead as -> Hrest.
    f_equal. apply IH; try done.
    + by apply Permutation_cons_inv in Hperm.
    + intros k. specialize (Hst k). rewrite !filter_cons in Hst.
      destruct (decide (key y = k)); [by injection Hst|done].
Qed.

End Sort.

Lemma freeOnSelected_freeOn gs selectedDates bike date :
  freeOnSelected gs selectedDates bike date = true ↔
  freeOn gs selectedDates bike date.
Proof.
  unfold freeOnSelected, freeOn.
  destruct (bool_decide_reflect (Date.format_dash date ∈ selectedDates)); simpl.
  - rewrite orb_true_iff, !bool_decide_eq_true. tauto.
  - split; [done|tauto].
Qed.

(** No date counts for a bike whose bookings have not arrived. *)
Lemma unloaded_not_free gs selectedDates bike date :
  Bike.isLoading bike = true ∨ Bike.bookings bike = None →
  ¬ freeOn gs selectedDates bike date.
Proof.
  intros Hbike [_ Hst].
  assert (getStatus gs bike date = Loading) as Hloading.
  { unfold getStatus. destruct Hbike as [H|H]; rewrite H; [done|].
    by destruct (Bike.isLoading bike). }
  rewrite Hloading in Hst. by destruct Hst.
Qed.

Lemma existsb_Exists {A} (f : A → bool) (P : A → Prop) l :
  (∀ x, f x = true ↔ P x) → existsb f l = true ↔ Exists P l.
Proof.
  intros Hf. induction l as [|x l IH]; simpl.
  - split; [done|]. by intros ?%Exists_nil.
  - by rewrite orb_true_iff, Exists_cons, IH, Hf.
Qed.

Lemma List_filter_as_filter {A} (f : A → bool) (P : A → Prop)
    `{!∀ x, Decision (P x)} l :
  (∀ x, f x = true ↔ P x) → List.filter f l = filter P l.
Proof.
  intros Hf. induction l as [|x l IH]; simpl; [done|].
  rewrite filter_cons, IH.
  destruct (f x) eqn:Hx, (decide (P x)) as [HP|HP]; try done.
  - by apply Hf in Hx.
  - apply Hf in HP. congruence.
Qed.

Lemma size_pos_nonempty (X : gset string) :
  (0 <? size X)%nat = true ↔ X ≠ ∅.
Proof.
  rewrite Nat.ltb_lt, <- (leibniz_equiv_iff X ∅), <- size_non_empty_iff. lia.
Qed.

Lemma filteredBikes_selected gs bikes selectedDates shownDates :
  selectedDates ≠ ∅ →
  filteredBikes gs bikes selectedDates shownDates =
  filter (λ bike, Exists (freeOn gs selectedDates bike) shownDates) bikes.
Proof.
  intros Hne. unfold filteredBikes.
  rewrite (proj2 (size_pos_nonempty selectedDates) Hne).
  apply List_filter_as_filter. intros bike.
  apply existsb_Exists. intros date. apply freeOnSelected_freeOn.
Qed.

(** C6: with a non-empty selection the filter keeps, in their order, exactly
    the bikes that are available or on half day on at least one shown date
    whose key is selected; with an empty selection it keeps every bike. The
    sort that follows only reorders the bikes kept. *)
Theorem filter_keeps_free_bikes gs localeCompare bikes duration sortOrder
    selectedDates shownDates :
  (selectedDates ≠ ∅ →
     filteredBikes gs bikes selectedDates shownDates =
     filter (λ bike, Exists (freeOn gs selectedDates bike) shownDates) bikes) ∧
  (selectedDates = ∅ →
     filteredBikes gs bikes selectedDates shownDates = bikes) ∧
  (sortedBikes gs localeCompare bikes duration sortOrder selectedDates shownDates
    ≡ₚ filteredBikes gs bikes selectedDates shownDates).
Proof.
  repeat split.
  - apply filteredBikes_selected.
  - intros ->. unfold filteredBikes. by rewrite size_empty.
  - apply sort_Permutation.
Qed.

Lemma weekend_selected : ({[ "2026-02-07"; "2026-02-08" ]} : gset string) ≠ ∅.
Proof.
  intros H. apply (f_equal (λ X : gset string, size X)) in H.
  vm_compute in H. discriminate H.
Qed.

Lemma filter_keeps_free_bikes_witness :
  filteredBikes defaultSettings [Sample.free; Sample.rented; Sample.loading]
    {[ "2026-02-07"; "2026-02-08" ]} (dates Sample.saturday 3) =
  filter (λ bike, Exists (freeOn defaultSettings {[ "2026-02-07"; "2026-02-08" ]} bike)
                    (dates Sample.saturday 3))
    [Sample.free; Sample.rented; Sample.loading] ∧
  filteredBikes defaultSettings [Sample.free; Sample.rented; Sample.loading]
    ∅ (dates Sample.saturday 3) = [Sample.free; Sample.rented; Sample.loading].
Proof.
  split.
  - apply (proj1 (filter_keeps_free_bikes defaultSettings Sample.byCode
                    [Sample.free; Sample.rented; Sample.loading] 1 "asc"
                    {[ "2026-02-07"; "2026-02-08" ]} (dates Sample.saturday 3))).
    exact weekend_selected.
  - apply (proj1 (proj2 (filter_keeps_free_bikes defaultSettings Sample.byCode
                    [Sample.free; Sample.rented; Sample.loading] 1 "asc"
                    ∅ (dates Sample.saturday 3)))).
    reflexivity.
Defined.

(** C10: a bike that is still loading, or has no booking data, is dropped by
    the filter as soon as one date is selected. *)
Theorem loading_bike_filtered_out gs localeCompare bikes duration sortOrder
    selectedDates shownDates bike :
  Bike.isLoading bike = true ∨ Bike.bookings bike = None →
  selectedDates ≠ ∅ →
  (bike ∉ filteredBikes gs bikes selectedDates shownDates) ∧
  (bike ∉ sortedBikes gs localeCompare bikes duration sortOrder selectedDates shownDates).
Proof.
  intros Hbike Hne.
  assert (bike ∉ filteredBikes gs bikes selectedDates shownDates) as Hout.
  { rewrite (filteredBikes_selected gs bikes selectedDates shownDates Hne).
    rewrite list_elem_of_filter. intros [Hex _].
    apply Exists_exists in Hex as (date & _ & Hfree).
    by apply (unloaded_not_free gs selectedDates bike date Hbike). }
  split; [done|].
  unfold sortedBikes. by rewrite sort_Permutation.
Qed.

Lemma loading_bike_filtered_out_witness :
  Bike.bookings Sample.loading = None ∧
  (Sample.loading ∉
     filteredBikes defaultSettings [Sample.free; Sample.rented; Sample.loading]
       {[ "2026-02-07"; "2026-02-08" ]} (dates Sample.saturday 3)) ∧
  (Sample.loading ∉
     sortedBikes defaultSettings Sample.byCode
       [Sample.free; Sample.rented; Sample.loading] 1 "asc"
       {[ "2026-02-07"; "2026-02-08" ]} (dates Sample.saturday 3)).
Proof.
  split; [reflexivity|].
  apply (loading_bike_filtered_out defaultSettings Sample.byCode
           [Sample.free; Sample.rented; Sample.loading] 1 "asc"
           {[ "2026-02-07"; "2026-02-08" ]} (dates Sample.saturday 3)
           Sample.loading).
  - right. reflexivity.
  - exact weekend_selected.
Defined.

(** Every key [toggleDateFilter] leaves in the selection is the key of a
    date whose header was clicked: the selection never names a date that is
    not shown. *)
Lemma toggleDateFilter_keys (clicked : list Date.t) (k : string) :
  k ∈ foldr toggleDateFilter ∅ clicked →
  ∃ date, date ∈ clicked ∧ Date.format_dash date = k.
Proof.
  induction clicked as [|d clicked IH]; simpl; [set_solver|].
  unfold toggleDateFilter at 1. intros Hk.
  assert (k ∈ foldr toggleDateFilter ∅ clicked ∨ k = Date.format_dash d) as [H|H].
  { case_bool_decide.
    - apply elem_of_difference in Hk as [? _]. by left.
    - apply elem_of_union in Hk as [?|?%elem_of_singleton]; [by left|by right]. }
  - destruct (IH H) as (date & ? & ?). exists date. split; [|done].
    by apply list_elem_of_further.
  - exists d. split; [apply list_elem_of_here|done].
Qed.

Lemma filteredBikes_sublist gs bikes selectedDates shownDates :
  filteredBikes gs bikes selectedDates shownDates `sublist_of` bikes.
Proof.
  unfold filteredBikes. destruct (0 <? size selectedDates)%nat; [|done].
  induction bikes as [|b l IH]; simpl; [done|].
  destruct (existsb _ _); by constructor.
Qed.

(** When the comparator is the difference of the prices and no price is NaN,
    the rows are ordered by the value of the price. *)
Lemma rows_by_price gs localeCompare bikes duration sortOrder selectedDates shownDates
    (price := λ bike, Double.getPriceForDuration bike duration) :
  (∀ bike, bike ∈ filteredBikes gs bikes selectedDates shownDates →
           Double.isNaN (price bike) = false) →
  (∀ a b, compareBikes localeCompare duration sortOrder a b =
          Double.sub (price a) (price b)) →
  StronglySorted
    (λ a b, Double.rank_le (Double.rank (price a)) (Double.rank (price b)))
    (sortedBikes gs localeCompare bikes duration sortOrder selectedDates shownDates).
Proof.
  intros Hnum Hcmp. unfold sortedBikes.
  apply (sort_StronglySorted _ (λ bike, Double.isNaN (price bike) = false)).
  - by apply Forall_forall.
  - intros a b Ha Hb. rewrite Hcmp.
    apply sub_sign; try done; apply price_representable.
  - intros a b _ _. apply rank_le_total.
  - intros a b c _ _ _. apply rank_le_trans.
Qed.

Lemma rows_by_falling_price gs localeCompare bikes duration sortOrder selectedDates
    shownDates (price := λ bike, Double.getPriceForDuration bike duration) :
  (∀ bike, bike ∈ filteredBikes gs bikes selectedDates shownDates →
           Double.isNaN (price bike) = false) →
  (∀ a b, compareBikes localeCompare duration sortOrder a b =
          Double.sub (price b) (price a)) →
  StronglySorted
    (λ a b, Double.rank_le (Double.rank (price b)) (Double.rank (price a)))
    (sortedBikes gs localeCompare bikes duration sortOrder selectedDates shownDates).
Proof.
  intros Hnum Hcmp. unfold sortedBikes.
  apply (sort_StronglySorted _ (λ bike, Double.isNaN (price bike) = false)).
  - by apply Forall_forall.
  - intros a b Ha Hb. rewrite Hcmp.
    apply sub_sign; try done; apply price_representable.
  - intros a b _ _. apply rank_le_total.
  - intros a b c _ _ _ Hab Hbc. by apply (rank_le_trans _ _ _ Hbc).
Qed.

(** C7: under ['asc'] the comparator is the difference of the two prices, a
    number, and the sort is stable: for every price, the bikes with that
    price appear in the rows in the order in which the filter kept them,
    which is their order in the input list. The rows are those bikes,
    ordered by the value of their price. The prices are taken to be numbers:
    a NaN among them leaves the order to the engine. *)
Theorem ascending_price_sort_stable gs localeCompare bikes duration
    selectedDates shownDates :
  let rows := sortedBikes gs localeCompare bikes duration "asc" selectedDates shownDates in
  let kept := filteredBikes gs bikes selectedDates shownDates in
  let price := λ bike, Double.getPriceForDuration bike duration in
  (∀ bike, bike ∈ kept → Double.isNaN (price bike) = false) →
  (∀ a b, compareBikes localeCompare duration "asc" a b =
          Double.sub (price a) (price b)) ∧
  (∀ p,
     filter (λ bike, Double.eqb (price bike) p = true) rows =
     filter (λ bike, Double.eqb (price bike) p = true) kept) ∧
  kept `sublist_of` bikes ∧
  StronglySorted
    (λ a b, Double.rank_le (Double.rank (price a)) (Double.rank (price b))) rows ∧
  rows ≡ₚ kept.
Proof.
  intros rows kept price Hnum. subst rows kept.
  split; [done|]. split; [|split; [|split]].
  - intros p. apply sort_filter. intros a b Ha Hb. by apply (sub_tie _ _ p).
  - apply filteredBikes_sublist.
  - by apply rows_by_price.
  - apply sort_Permutation.
Qed.

(** For 21 days the bike at 70.21 a week and the bike at 10.03 a day cost the
    same number and keep their order, ahead of the bike at 50 a day. *)
Lemma ascending_price_sort_stable_witness :
  sortedBikes defaultSettings Sample.byCode
    [Sample.byWeek; Sample.rented; Sample.byDay] 21 "asc" ∅ [] =
    [Sample.byWeek; Sample.byDay; Sample.rented] ∧
  (∀ p,
     filter (λ bike, Double.eqb (Double.getPriceForDuration bike 21) p = true)
       (sortedBikes defaultSettings Sample.byCode
          [Sample.byWeek; Sample.rented; Sample.byDay] 21 "asc" ∅ []) =
     filter (λ bike, Double.eqb (Double.getPriceForDuration bike 21) p = true)
       (filteredBikes defaultSettings
          [Sample.byWeek; Sample.rented; Sample.byDay] ∅ [])) ∧
  StronglySorted
    (λ a b, Double.rank_le (Double.rank (Double.getPriceForDuration a 21))
              (Double.rank (Double.getPriceForDuration b 21)))
    (sortedBikes defaultSettings Sample.byCode
       [Sample.byWeek; Sample.rented; Sample.byDay] 21 "asc" ∅ []).
Proof.
  split; [vm_compute; reflexivity|].
  destruct (ascending_price_sort_stable defaultSettings Sample.byCode
              [Sample.byWeek; Sample.rented; Sample.byDay] 21 ∅ [])
    as (_ & Hstable & _ & Hsorted & _).
  - intros bike Hbike.
    repeat (apply elem_of_cons in Hbike as [->|Hbike]; [reflexivity|]).
    by apply elem_of_nil in Hbike.
  - split; [exact Hstable|exact Hsorted].
Defined.

(** ** Building the fleet *)

Section Fleet.

Context (imageMap : gmap string string) (isLoading : bool).

(** The inner loop under its [try], read as a walk over the records. *)
Lemma forEach_offer product metafields variants st :
  match forEach (visitVariant imageMap isLoading product metafields) variants st with
  | Normal st' | Throw st' => st'
  end =
  offer
    ((λ e : string * option VariantData.t,
        (e.1, variantBike imageMap isLoading product metafields e.1 e.2))
       <$> List.filter (λ e, negb (String.eqb e.1 "product")) variants) st.
Proof.
  revert st. induction variants as [|[variantId variantData] variants IH];
    intros st; simpl; [done|].
  destruct (String.eqb variantId "product") eqn:Hp; simpl; [apply IH|].
  case_bool_decide; [apply IH|].
  destruct (variantBike imageMap isLoading product metafields variantId variantData);
    simpl; [apply IH|done].
Qed.

Lemma visitProduct_offer st entry :
  visitProduct imageMap isLoading st entry =
  offer (records imageMap isLoading entry) st.
Proof.
  unfold visitProduct, records.
  destruct (entry.2) as [product|]; [|done].
  destruct (Product.newMetafields product) as [[metafields|]|]; try done.
  destruct (Metafields.variantStock metafields) as [variants|]; [|done].
  apply forEach_offer.
Qed.

Lemma visitProducts_offer data st :
  fold_left (visitProduct imageMap isLoading) data st =
  fold_left (λ st entry, offer (records imageMap isLoading entry) st) data st.
Proof.
  revert st. induction data as [|entry data IH]; intros st; simpl; [done|].
  by rewrite visitProduct_offer, IH.
Qed.

Lemma variantBike_variantId product metafields variantId variantData u :
  variantBike imageMap isLoading product metafields variantId variantData = Some u →
  Bike.variantId u = variantId.
Proof.
  unfold variantBike.
  destruct variantData as [variantData|], (Product.id product) as [id|],
    (Product.handle product) as [handle|]; simpl; try done.
  by intros [= <-].
Qed.

Lemma records_labelled entry : labelled (records imageMap isLoading entry).
Proof.
  intros variantId u. unfold records.
  destruct (entry.2) as [product|]; [|by intros ?%elem_of_nil].
  destruct (Product.newMetafields product) as [[metafields|]|];
    try by intros ?%elem_of_nil.
  destruct (Metafields.variantStock metafields) as [variants|];
    [|by intros ?%elem_of_nil].
  intros ([vid variantData] & [= -> Hu] & _)%list_elem_of_fmap.
  symmetry in Hu. by apply variantBike_variantId in Hu.
Qed.

(** *** Identifiers are distinct, whatever the catalog *)

Lemma offer_tidy rs st : labelled rs → tidy st → tidy (offer rs st).
Proof.
  revert st. induction rs as [|[variantId r] rs IH]; intros st Hrs Hst; simpl;
    [done|].
  assert (labelled rs) as Hrs'.
  { intros vid u Hin. apply Hrs. by apply list_elem_of_further. }
  case_bool_decide as Hseen; [by apply IH|].
  destruct Hst as [Hsub Hnd].
  destruct r as [u|].
  - apply IH; [done|].
    assert (Bike.variantId u = variantId) as Hu by apply Hrs, list_elem_of_here.
    split; simpl.
    + intros vid. rewrite fmap_app, elem_of_app, elem_of_union, elem_of_singleton.
      simpl. rewrite list_elem_of_singleton, Hu. intros [?|?]; auto.
    + rewrite fmap_app. apply NoDup_app. split; [done|]. split.
      * intros vid Hvid Heq%list_elem_of_singleton. simpl in Heq.
        apply Hseen, Hsub. by rewrite <- Hu, <- Heq.
      * apply NoDup_singleton.
  - split; simpl; [|done].
    intros vid Hvid. apply elem_of_union. right. by apply Hsub.
Qed.

Lemma collect_NoDup data :
  NoDup (Bike.variantId <$> collect imageMap isLoading data).
Proof.
  unfold collect. rewrite visitProducts_offer.
  assert (∀ st, tidy st →
            tidy (fold_left (λ st entry, offer (records imageMap isLoading entry) st)
                    data st)) as Htidy.
  { induction data as [|entry data IH]; intros st Hst; simpl; [done|].
    apply IH, offer_tidy; [apply records_labelled|done]. }
  apply Htidy. split; [by intros vid ?%elem_of_nil|constructor].
Qed.

(** *** The fleet follows the source order *)

Lemma offer_sublist rs st :
  ∃ added, bikes (offer rs st) = bikes st ++ added ∧
           added `sublist_of` omap snd rs.
Proof.
  revert st. induction rs as [|[variantId r] rs IH]; intros st; simpl.
  - exists []. by rewrite app_nil_r.
  - case_bool_decide.
    + destruct (IH st) as (added & Heq & Hsub). exists added. split; [done|].
      destruct r; simpl; [by constructor|done].
    + destruct r as [u|]; simpl.
      * destruct (IH {| seenVariantIds := {[variantId]} ∪ seenVariantIds st;
                        bikes := bikes st ++ [u] |}) as (added & Heq & Hsub).
        exists (u :: added). rewrite Heq. simpl.
        split; [by rewrite <- app_assoc|by constructor].
      * exists []. rewrite app_nil_r. split; [done|apply sublist_nil_l].
Qed.

Lemma collect_sublist data :
  collect imageMap isLoading data `sublist_of` sourceUnits imageMap isLoading data.
Proof.
  unfold collect. rewrite visitProducts_offer.
  assert (∀ st, ∃ added,
            bikes (fold_left (λ st entry, offer (records imageMap isLoading entry) st)
                     data st) = bikes st ++ added ∧
            added `sublist_of` sourceUnits imageMap isLoading data) as Hsub.
  { induction data as [|entry data IH]; intros st; simpl.
    - exists []. by rewrite app_nil_r.
    - destruct (IH (offer (records imageMap isLoading entry) st))
        as (added & -> & Hsub).
      destruct (offer_sublist (records imageMap isLoading entry) st)
        as (added' & -> & Hsub').
      exists (added' ++ added). split; [by rewrite <- app_assoc|].
      by apply sublist_app. }
  by destruct (Hsub {| bikes := []; seenVariantIds := ∅ |}) as (added & -> & ?).
Qed.

(** *** A catalog without failing records *)

Lemma offer_push rs st :
  labelled rs → (∀ r, r ∈ rs → is_Some r.2) →
  offer rs st = fold_left push (omap snd rs) st.
Proof.
  revert st. induction rs as [|[variantId r] rs IH]; intros st Hrs Hsome; simpl;
    [done|].
  assert (labelled rs) as Hrs'.
  { intros vid u Hin. apply Hrs. by apply list_elem_of_further. }
  assert (∀ r, r ∈ rs → is_Some r.2) as Hsome'.
  { intros r' Hin. apply Hsome. by apply list_elem_of_further. }
  destruct (Hsome (variantId, r)) as [u Hu]; [apply list_elem_of_here|].
  simpl in Hu. subst r. simpl.
  assert (Bike.variantId u = variantId) as Hid by apply Hrs, list_elem_of_here.
  unfold push at 2. rewrite Hid.
  case_bool_decide; by apply IH.
Qed.

Lemma collect_push data :
  wellFormed imageMap isLoading data →
  collect imageMap isLoading data =
  bikes (fold_left push (sourceUnits imageMap isLoading data)
           {| bikes := []; seenVariantIds := ∅ |}).
Proof.
  intros Hwf. unfold collect. rewrite visitProducts_offer. f_equal.
  generalize {| bikes := []; seenVariantIds := ∅ |} as st.
  induction data as [|entry data IH]; intros st; simpl; [done|].
  unfold sourceUnits in *. simpl. rewrite fold_left_app, <- IH.
  - f_equal. apply offer_push; [apply records_labelled|].
    intros r Hr. apply (Hwf entry); [apply list_elem_of_here|done].
  - intros entry' r Hentry. apply Hwf. by apply list_elem_of_further.
Qed.

Lemma push_consistent st u : consistent st → consistent (push st u).
Proof.
  intros [Hseen Hnodup]. unfold push. case_bool_decide as Hu; [done|].
  split; simpl.
  - intros vid. rewrite fmap_app, elem_of_app, elem_of_union, Hseen. simpl.
    rewrite elem_of_singleton, list_elem_of_singleton. tauto.
  - rewrite fmap_app. apply NoDup_app. split; [done|]. split.
    + intros vid Hvid ->%list_elem_of_singleton. by apply Hu, Hseen.
    + apply NoDup_singleton.
Qed.

Lemma filter_none {A} (P : A → Prop) `{!∀ x, Decision (P x)} l :
  (∀ x, x ∈ l → ¬ P x) → filter P l = [].
Proof.
  induction l as [|x l IH]; intros Hl; [done|].
  rewrite filter_cons_False by (apply Hl, list_elem_of_here).
  apply IH. intros y Hy. by apply Hl, list_elem_of_further.
Qed.

Lemma unseen_absent st vid :
  consistent st → vid ∉ seenVariantIds st →
  filter (λ b, Bike.variantId b = vid) (bikes st) = [].
Proof.
  intros [Hseen _] Hvid. apply filter_none. intros b Hb Heq.
  apply Hvid, Hseen. rewrite <- Heq. by apply list_elem_of_fmap_2.
Qed.

(** For every identifier the loops keep what the array already held, or
    else the first unit offered under that identifier. *)
Lemma fold_push_first us st vid :
  consistent st →
  filter (λ b, Bike.variantId b = vid) (bikes (fold_left push us st)) =
    if decide (vid ∈ seenVariantIds st)
    then filter (λ b, Bike.variantId b = vid) (bikes st)
    else take 1 (filter (λ b, Bike.variantId b = vid) us).
Proof.
  revert st. induction us as [|u us IH]; intros st Hst; simpl.
  - case_decide; [done|]. by apply unseen_absent.
  - rewrite (IH _ (push_consistent _ u Hst)). unfold push.
    rewrite (filter_cons _ u).
    case_bool_decide as Hu; simpl.
    + destruct (decide (vid ∈ seenVariantIds st)) as [Hv|Hv]; [done|].
      rewrite decide_False; [done|]. by intros <-.
    + rewrite filter_app, filter_singleton by exact [].
      destruct (decide (vid ∈ seenVariantIds st)) as [Hv|Hv].
      * rewrite decide_True by set_solver.
        rewrite decide_False; [by rewrite app_nil_r|]. by intros <-.
      * destruct (decide (Bike.variantId u = vid)) as [Heq|Hne].
        -- rewrite decide_True by set_solver.
           by rewrite (unseen_absent st vid Hst Hv).
        -- rewrite decide_False; [done|].
           rewrite elem_of_union, elem_of_singleton. by intros [?|?].
Qed.

Lemma collect_first data vid :
  wellFormed imageMap isLoading data →
  filter (λ b, Bike.variantId b = vid) (collect imageMap isLoading data) =
  take 1 (filter (λ b, Bike.variantId b = vid) (sourceUnits imageMap isLoading data)).
Proof.
  intros Hwf. rewrite collect_push by done. rewrite fold_push_first.
  - rewrite decide_False; [done|]. set_solver.
  - split; [set_solver|constructor].
Qed.

End Fleet.

Lemma withBookings_filter fetchBookings vid (l : list Bike.t) :
  filter (λ b, Bike.variantId b = vid) (map (withBookings fetchBookings) l) =
  map (withBookings fetchBookings) (filter (λ b, Bike.variantId b = vid) l).
Proof.
  induction l as [|b l IH]; [done|].
  cbn [map]. rewrite !filter_cons, IH. simpl. by case_decide.
Qed.

Lemma withBookings_variantIds fetchBookings (l : list Bike.t) :
  Bike.variantId <$> map (withBookings fetchBookings) l = Bike.variantId <$> l.
Proof.
  induction l as [|b l IH]; [done|].
  cbn [map]. by rewrite !fmap_cons, IH.
Qed.

(** C8 fails on a catalog with a record no unit can be built from. The first
    product lists "v1", then "v2" with a [null] entry, then "v4"; the second
    lists "v2" and "v3" in full. The loop marks "v2" as seen before it reads
    the entry, the exception ends the walk over the first product, and the
    second product's "v2" is then skipped as a duplicate: of the two records
    that share "v2" the fleet holds no unit at all, and "v4" is lost with
    them, in [extractBikeMetadata] and in both versions of
    [fetchAvailabilityData]. *)
Theorem failed_record_hides_later_duplicate :
  records ∅ true ("product0", Some Sample.torn) =
    [("v1", Some Sample.torn1); ("v2", None); ("v4", Some Sample.torn4)] ∧
  records ∅ true ("product1", Some Sample.pcx) =
    [("v2", Some Sample.pcx2); ("v3", Some Sample.pcx3)] ∧
  length (filter (λ r, r.1 = "v2") (flat_map (records ∅ true) Sample.tornCatalog)) =
    2%nat ∧
  (extractBikeMetadata ∅ Sample.tornCatalog).1 = [Sample.torn1; Sample.pcx3] ∧
  filter (λ b, Bike.variantId b = "v2") (extractBikeMetadata ∅ Sample.tornCatalog).1 =
    [] ∧
  Bike.variantId <$> (fetchAvailabilityData ∅ Sample.noBookings Sample.tornCatalog).2 =
    ["v1"; "v3"] ∧
  Bike.variantId <$>
    (fetchAvailabilityData_legacy ∅ Sample.noBookings Sample.tornCatalog).2 =
    ["v1"; "v3"].
Proof. repeat split; reflexivity. Qed.

(** * The specification's examples, evaluated *)

(** Dates: 7 February 2026 is day 20491, a Saturday, and formats as the
    booking service and the selection expect. *)
Example saturday_is_saturday :
  Sample.saturday = 20491 ∧ Date.getDay Sample.saturday = 6 ∧
  Date.civil_of Sample.saturday = {| Date.year := 2026; Date.month := 2; Date.day := 7 |} ∧
  Date.format_slash Sample.saturday = "2026/02/07" ∧
  Date.format_dash Sample.saturday = "2026-02-07" ∧
  Date.getDay 0 = 4.
Proof. repeat split; reflexivity. Qed.

Example formats_are_padded :
  Date.format_slash (Date.of_civil 2026 12 31) = "2026/12/31" ∧
  Date.format_slash (Date.of_civil 2027 1 1) = "2027/01/01" ∧
  Date.format_dash (Date.of_civil 2028 2 29) = "2028-02-29" ∧
  Date.format_slash (Date.of_civil 999 3 5) = "0999/03/05" ∧
  Date.toString (Date.getMonth (Date.of_civil 2027 1 1) + 1) = "1".
Proof. repeat split; reflexivity. Qed.

Lemma getDay_range (d : Date.t) : 0 ≤ Date.getDay d ≤ 6.
Proof. unfold Date.getDay. pose proof (Z.mod_pos_bound (d + 4) 7). lia. Qed.

Example shown_dates :
  dates Sample.saturday 3 = [Sample.saturday; Sample.sunday; Sample.monday].
Proof. reflexivity. Qed.

(** Prices: 160 a week for 7 days, 148 a week for 14 days, 110 for one day,
    50 a day by default for 3 days. Ten days at 160 a week are 160 times the
    number nearest to 10/7; three days at 0.10 a day are not the number
    nearest to 0.30. *)
Example price_examples :
  Double.getPriceForDuration Sample.tiered 7 = Double.num 160 ∧
  Double.getPriceForDuration Sample.tiered 14 = Double.num 296 ∧
  Double.getPriceForDuration Sample.tiered 1 = Double.num 110 ∧
  Double.getPriceForDuration (Sample.priced (Some [Sample.fallback])) 3 =
    Double.num 150 ∧
  Double.getPriceForDuration Sample.tiered 10 =
    S754_finite false 8042142191733029 (-45) ∧
  Double.getPriceForDuration (Sample.priced (Some [Sample.dime])) 3 =
    S754_finite false 5404319552844596 (-54) ∧
  Double.parseFloat (Q2Qc (3 # 10)) = S754_finite false 5404319552844595 (-54) ∧
  Double.getPriceForDuration (Sample.priced (Some [])) 3 = Double.zero.
Proof. repeat split; vm_compute; reflexivity. Qed.

(** Numbers: 0.1 and 70.21 are the numbers nearest to them; 2^53 + 1 lies
    halfway between two numbers and goes to the even one; the largest number
    is followed by the infinity and the least is preceded by 0. *)
Example number_examples :
  Double.parseFloat (Q2Qc (1 # 10)) = S754_finite false 7205759403792794 (-56) ∧
  Double.parseFloat (Q2Qc (7021 # 100)) = S754_finite false 4940589528713789 (-46) ∧
  Double.parseFloat (Q2Qc (-1 # 3)) = S754_finite true 6004799503160661 (-54) ∧
  Double.num 7 = S754_finite false 7881299347898368 (-50) ∧
  Double.num (2 ^ 53 + 1) = Double.num (2 ^ 53) ∧
  Double.num (2 ^ 53 + 3) = Double.num (2 ^ 53 + 4) ∧
  Double.num (2 ^ 1024 - 2 ^ 970 - 1) = S754_finite false 9007199254740991 971 ∧
  Double.num (2 ^ 1024 - 2 ^ 970) = S754_infinity false ∧
  Double.parseFloat (Q2Qc (25 # 10 ^ 325)) = S754_finite false 1 (-1074) ∧
  Double.parseFloat (Q2Qc (24 # 10 ^ 325)) = Double.zero ∧
  Double.div (Double.num 10) (Double.num 7) = S754_finite false 6433713753386423 (-52) ∧
  Double.sub (Double.parseFloat (Q2Qc (3 # 10)))
    (Double.mul (Double.parseFloat (Q2Qc (1 # 10))) (Double.num 3)) =
    S754_finite true 4503599627370496 (-106).
Proof. repeat split; vm_compute; reflexivity. Qed.

(** The same on the listed decimals, without rounding. *)
Example decimal_examples :
  getPriceForDuration Sample.tiered 7 = num 160 ∧
  getPriceForDuration Sample.tiered 10 = Q2Qc (1600 # 7) ∧
  getPriceForDuration (Sample.priced (Some [Sample.fallback])) 3 = num 150 ∧
  getPriceForDuration (Sample.priced (Some [])) 3 = 0%Qc.
Proof. repeat split; apply Qc_is_canon; reflexivity. Qed.

(** Statuses under the default rules (Sundays closed). *)
Example status_examples :
  getStatus defaultSettings Sample.free Sample.sunday = Closed ∧
  getStatus defaultSettings Sample.free Sample.saturday = Half ∧
  getStatus defaultSettings Sample.free Sample.monday = Available ∧
  getStatus defaultSettings Sample.rented Sample.saturday = Booked ∧
  getStatus defaultSettings Sample.loading Sample.monday = Loading.
Proof. repeat split; reflexivity. Qed.

(** Filter: [free] is on half day on the selected Saturday and stays;
    [rented] is booked on the Saturday and closed on the Sunday and goes, and
    so does the bike that is still loading. *)
Example filter_example :
  filteredBikes defaultSettings [Sample.free; Sample.rented; Sample.loading]
    {[ "2026-02-07"; "2026-02-08" ]} (dates Sample.saturday 3) = [Sample.free].
Proof. reflexivity. Qed.

(** Sort: [free] and [alsoFree] cost the same for one day and keep their
    order in both directions. So do, for 21 days, the bike at 10.03 a day
    and the bike at 70.21 a week: both products round to 210.63. For 9 days
    the bike at 21 a week comes after the bike at 27, by the rounding of
    9/7. *)
Example sort_example :
  sortedBikes defaultSettings Sample.byCode
    [Sample.free; Sample.rented; Sample.alsoFree] 1 "asc" ∅ [] =
    [Sample.rented; Sample.free; Sample.alsoFree] ∧
  sortedBikes defaultSettings Sample.byCode
    [Sample.free; Sample.rented; Sample.alsoFree] 1 "desc" ∅ [] =
    [Sample.free; Sample.alsoFree; Sample.rented] ∧
  Double.getPriceForDuration Sample.byDay 21 = Double.parseFloat (Q2Qc (21063 # 100)) ∧
  Double.getPriceForDuration Sample.byWeek 21 = Double.parseFloat (Q2Qc (21063 # 100)) ∧
  sortedBikes defaultSettings Sample.byCode [Sample.byWeek; Sample.byDay] 21 "asc" ∅ [] =
    [Sample.byWeek; Sample.byDay] ∧
  sortedBikes defaultSettings Sample.byCode [Sample.byWeek; Sample.byDay] 21 "desc" ∅ [] =
    [Sample.byWeek; Sample.byDay] ∧
  Double.getPriceForDuration Sample.cheap 9 = S754_finite false 7599824371187713 (-48) ∧
  Double.getPriceForDuration Sample.fixed 9 = S754_finite false 7599824371187712 (-48) ∧
  sortedBikes defaultSettings Sample.byCode [Sample.cheap; Sample.fixed] 9 "asc" ∅ [] =
    [Sample.fixed; Sample.cheap].
Proof. repeat split; vm_compute; reflexivity. Qed.

(** Catalog: three units from four source records, each still loading; the
    closure rules come from the first product that has metafields. *)
Example catalog_example :
  (λ b, (Bike.variantId b, Bike.name b, Bike.productId b, Bike.isLoading b))
    <$> (extractBikeMetadata ∅ Sample.catalog).1 =
    [("v1", "YAMAHA NMAX155", "801", true); ("v2", "YAMAHA NMAX155", "801", true);
     ("v3", "HONDA PCX", "802", true)] ∧
  Settings.closures (extractBikeMetadata ∅ Sample.catalog).2 = [0; 6].
Proof. split; reflexivity. Qed.

(** * Further properties of the component *)

(** ** Selecting dates *)

Lemma toggleDateFilter_elem_of date prev k :
  k ∈ toggleDateFilter date prev ↔
  (if decide (dateKey date = k) then k ∉ prev else k ∈ prev).
Proof.
  unfold toggleDateFilter, dateKey.
  destruct (decide (Date.format_dash date = k)) as [<-|Hne];
    case_bool_decide;
    rewrite ?elem_of_difference, ?elem_of_union, ?elem_of_singleton;
    intuition congruence.
Qed.

(** X1: a date is selected exactly when its header was clicked an odd number
    of times ([clicked] lists the clicks, the latest first). *)
Theorem toggleDateFilter_parity (clicked : list Date.t) (k : string) :
  k ∈ foldr toggleDateFilter ∅ clicked ↔ Nat.odd (clicksOn k clicked) = true.
Proof.
  unfold clicksOn. induction clicked as [|d clicked IH]; simpl.
  - split; [by intros ?%not_elem_of_empty|done].
  - rewrite toggleDateFilter_elem_of, filter_cons.
    destruct (decide (dateKey d = k)) as [Heq|Hne]; [|done].
    cbn [length]. rewrite Nat.odd_succ, <- Nat.negb_odd, IH.
    destruct (Nat.odd _); simpl; split; try done.
Qed.

(** X2: clicking the same header twice gives back the selection there was. *)
Theorem toggleDateFilter_twice date (prev : gset string) :
  toggleDateFilter date (toggleDateFilter date prev) = prev.
Proof.
  apply set_eq. intros k. rewrite toggleDateFilter_elem_of.
  destruct (decide (dateKey date = k)) as [Heq|Hne].
  - rewrite toggleDateFilter_elem_of, decide_True by done.
    split; [apply dec_stable|]. by intros ? ?.
  - by rewrite toggleDateFilter_elem_of, decide_False.
Qed.

Lemma filter_sublist_impl {A} (P Q : A → Prop)
    `{!∀ x, Decision (P x)} `{!∀ x, Decision (Q x)} (l : list A) :
  (∀ x, P x → Q x) → filter P l `sublist_of` filter Q l.
Proof.
  intros HPQ. induction l as [|x l IH]; [done|].
  rewrite !filter_cons.
  destruct (decide (P x)) as [HP|HP], (decide (Q x)) as [HQ|HQ].
  - by constructor.
  - by destruct HQ; apply HPQ.
  - by constructor.
  - done.
Qed.

(** X3: selecting more dates never removes a bike from the table: the rows
    kept under a non-empty selection are kept, in the same order, under
    every larger one. *)
Theorem selecting_more_dates_keeps_bikes gs bikes
    (selectedDates selectedDates' : gset string) shownDates :
  selectedDates ≠ ∅ → selectedDates ⊆ selectedDates' →
  filteredBikes gs bikes selectedDates shownDates
    `sublist_of` filteredBikes gs bikes selectedDates' shownDates.
Proof.
  intros Hne Hsub.
  assert (selectedDates' ≠ ∅) as Hne'.
  { intros ->. apply Hne. apply leibniz_equiv. by apply equiv_empty. }
  rewrite !filteredBikes_selected by done.
  apply filter_sublist_impl. intros bike Hex.
  eapply Exists_impl; [exact Hex|].
  intros date [Hkey Hstatus]. split; [|done]. by apply Hsub.
Qed.

Lemma selecting_more_dates_keeps_bikes_witness :
  filteredBikes defaultSettings [Sample.free; Sample.rented; Sample.loading]
    {[ "2026-02-08" ]} (dates Sample.saturday 3)
  `sublist_of`
  filteredBikes defaultSettings [Sample.free; Sample.rented; Sample.loading]
    ({[ "2026-02-08" ]} ∪ {[ "2026-02-07" ]}) (dates Sample.saturday 3).
Proof.
  apply (selecting_more_dates_keeps_bikes defaultSettings
           [Sample.free; Sample.rented; Sample.loading]
           {[ "2026-02-08" ]} ({[ "2026-02-08" ]} ∪ {[ "2026-02-07" ]})
           (dates Sample.saturday 3)).
  - intros H. apply (f_equal (λ X : gset string, size X)) in H.
    vm_compute in H. discriminate H.
  - apply union_subseteq_l.
Defined.

(** X4: when no shown date carries a selected key, a non-empty selection
    empties the table, whatever the bikes are. *)
Theorem selection_outside_table_hides_all gs localeCompare bikes duration
    sortOrder (selectedDates : gset string) shownDates :
  selectedDates ≠ ∅ →
  (∀ date, date ∈ shownDates → dateKey date ∉ selectedDates) →
  filteredBikes gs bikes selectedDates shownDates = [] ∧
  sortedBikes gs localeCompare bikes duration sortOrder selectedDates shownDates = [].
Proof.
  intros Hne Hout.
  assert (filteredBikes gs bikes selectedDates shownDates = []) as Hnone.
  { rewrite filteredBikes_selected by done. apply filter_none.
    intros bike _ (date & Hin & Hkey & _)%Exists_exists.
    by apply (Hout date). }
  split; [done|]. unfold sortedBikes. by rewrite Hnone.
Qed.

Lemma selection_outside_table_hides_all_witness :
  filteredBikes defaultSettings [Sample.free; Sample.alsoFree]
    {[ "2030-01-01" ]} (dates Sample.saturday 3) = [] ∧
  sortedBikes defaultSettings Sample.byCode [Sample.free; Sample.alsoFree] 1 "asc"
    {[ "2030-01-01" ]} (dates Sample.saturday 3) = [].
Proof.
  apply (selection_outside_table_hides_all defaultSettings Sample.byCode
           [Sample.free; Sample.alsoFree] 1 "asc" {[ "2030-01-01" ]}
           (dates Sample.saturday 3)).
  - intros H. apply (f_equal (λ X : gset string, size X)) in H.
    vm_compute in H. discriminate H.
  - intros date Hdate Hkey. apply elem_of_singleton in Hkey.
    change (dates Sample.saturday 3)
      with [Sample.saturday; Sample.sunday; Sample.monday] in Hdate.
    repeat (apply elem_of_cons in Hdate as [->|Hdate];
            [vm_compute in Hkey; discriminate Hkey|]).
    by apply elem_of_nil in Hdate.
Defined.

(** ** Orders of the rows *)

(** X5: under ['desc'] the comparator is the difference of the prices the
    other way round; the rows are ordered by falling value of the price, and
    bikes of equal price keep the order of the input list: the order is not
    the reverse of the ascending one when prices tie. The prices are taken
    to be numbers. *)
Theorem descending_price_sort_stable gs localeCompare bikes duration
    selectedDates shownDates :
  let rows := sortedBikes gs localeCompare bikes duration "desc" selectedDates shownDates in
  let kept := filteredBikes gs bikes selectedDates shownDates in
  let price := λ bike, Double.getPriceForDuration bike duration in
  (∀ bike, bike ∈ kept → Double.isNaN (price bike) = false) →
  (∀ p,
     filter (λ bike, Double.eqb (price bike) p = true) rows =
     filter (λ bike, Double.eqb (price bike) p = true) kept) ∧
  StronglySorted
    (λ a b, Double.rank_le (Double.rank (price b)) (Double.rank (price a))) rows.
Proof.
  intros rows kept price Hnum. subst rows kept. split.
  - intros p. apply sort_filter. intros a b Ha Hb. by apply (sub_tie _ _ p).
  - by apply rows_by_falling_price.
Qed.

Lemma descending_price_sort_stable_witness :
  StronglySorted
    (λ a b, Double.rank_le (Double.rank (Double.getPriceForDuration b 21))
              (Double.rank (Double.getPriceForDuration a 21)))
    (sortedBikes defaultSettings Sample.byCode
       [Sample.byWeek; Sample.rented; Sample.byDay] 21 "desc" ∅ []).
Proof.
  apply (descending_price_sort_stable defaultSettings Sample.byCode
           [Sample.byWeek; Sample.rented; Sample.byDay] 21 ∅ []).
  intros bike Hbike.
  repeat (apply elem_of_cons in Hbike as [->|Hbike]; [reflexivity|]).
  by apply elem_of_nil in Hbike.
Defined.

(** X28: the order of the rows under ['asc'] is the only one a stable sort
    can give: every arrangement of the bikes kept that is ordered by the
    value of the price, and in which the bikes of each value stand in the
    order of the input list, is the rows. The prices are taken to be
    numbers. *)
Theorem ascending_rows_determined gs localeCompare bikes duration
    selectedDates shownDates (l : list Bike.t) :
  let rows := sortedBikes gs localeCompare bikes duration "asc" selectedDates shownDates in
  let kept := filteredBikes gs bikes selectedDates shownDates in
  let value := λ bike, Double.rank (Double.getPriceForDuration bike duration) in
  (∀ bike, bike ∈ kept →
           Double.isNaN (Double.getPriceForDuration bike duration) = false) →
  l ≡ₚ kept →
  StronglySorted (λ a b, Double.rank_le (value a) (value b)) l →
  (∀ v, filter (λ bike, value bike = v) l = filter (λ bike, value bike = v) kept) →
  l = rows.
Proof.
  intros rows kept value Hnum Hperm Hsorted Hstable. subst rows.
  apply (stable_sorted_unique value Double.rank_le).
  - unfold Double.rank_le. intros [c1 v1] [c2 v2] H12 H21. simpl in *. f_equal; lia.
  - rewrite Hperm. symmetry. apply sort_Permutation.
  - done.
  - by apply rows_by_price.
  - intros v. rewrite Hstable. symmetry. unfold sortedBikes.
    apply (sort_filter_among _
             (λ bike, Double.isNaN (Double.getPriceForDuration bike duration) = false)).
    + by apply Forall_forall.
    + intros a b Ha Hb Hva Hvb. unfold compareBikes. simpl.
      apply sub_sign; try done; try apply price_representable.
      fold (value a) (value b). rewrite Hva, Hvb. unfold Double.rank_le. lia.
Qed.

(** The three bikes of the sample, priced for 21 days, in the one order a
    stable sort can give them. *)
Lemma ascending_rows_determined_witness :
  [Sample.byWeek; Sample.byDay; Sample.rented] =
  sortedBikes defaultSettings Sample.byCode
    [Sample.byWeek; Sample.rented; Sample.byDay] 21 "asc" ∅ [].
Proof.
  apply (ascending_rows_determined defaultSettings Sample.byCode
           [Sample.byWeek; Sample.rented; Sample.byDay] 21 ∅ []
           [Sample.byWeek; Sample.byDay; Sample.rented]).
  - intros bike Hbike.
    repeat (apply elem_of_cons in Hbike as [->|Hbike]; [reflexivity|]).
    by apply elem_of_nil in Hbike.
  - apply Permutation_skip, Permutation_swap.
  - change [Sample.byWeek; Sample.byDay; Sample.rented]
      with (sortedBikes defaultSettings Sample.byCode
              [Sample.byWeek; Sample.rented; Sample.byDay] 21 "asc" ∅ []).
    apply rows_by_price; [|done].
    intros bike Hbike.
    repeat (apply elem_of_cons in Hbike as [->|Hbike]; [reflexivity|]).
    by apply elem_of_nil in Hbike.
  - intros v.
    assert (Double.rank (Double.getPriceForDuration Sample.byWeek 21) =
            Double.rank (Double.getPriceForDuration Sample.byDay 21)) as Htie
      by (vm_compute; reflexivity).
    assert (Double.rank (Double.getPriceForDuration Sample.rented 21) ≠
            Double.rank (Double.getPriceForDuration Sample.byWeek 21)) as Hdearer
      by (vm_compute; discriminate).
    change (filteredBikes defaultSettings
              [Sample.byWeek; Sample.rented; Sample.byDay] ∅ [])
      with [Sample.byWeek; Sample.rented; Sample.byDay].
    rewrite !filter_cons, !filter_nil.
    repeat case_decide; congruence.
Defined.

(** X6: under any other value of [sortOrder] the rows are ordered by name,
    as far as [localeCompare] is a consistent comparison, and bikes of the
    same name keep the order of the input list. *)
Theorem name_sort_ordered gs localeCompare bikes duration sortOrder
    selectedDates shownDates :
  sortOrder ≠ "asc" → sortOrder ≠ "desc" → consistentCompare localeCompare →
  let rows := sortedBikes gs localeCompare bikes duration sortOrder selectedDates shownDates in
  let kept := filteredBikes gs bikes selectedDates shownDates in
  StronglySorted (λ a b, localeCompare (Bike.name a) (Bike.name b) ≤ 0) rows ∧
  (∀ name, filter (λ bike, Bike.name bike = name) rows =
           filter (λ bike, Bike.name bike = name) kept).
Proof.
  intros Hasc Hdesc [Htotal Htrans] rows kept. subst rows kept.
  unfold sortedBikes.
  assert (Hcmp : ∀ a b,
            Double.nonPositive (compareBikes localeCompare duration sortOrder a b) = true ↔
            localeCompare (Bike.name a) (Bike.name b) ≤ 0).
  { intros a b. unfold compareBikes.
    rewrite (proj2 (String.eqb_neq sortOrder "asc") Hasc).
    rewrite (proj2 (String.eqb_neq sortOrder "desc") Hdesc). simpl.
    apply nonPositive_num. }
  split.
  - apply (sort_StronglySorted _ (λ _, True)).
    + by apply Forall_forall.
    + intros a b _ _. apply Hcmp.
    + intros a b _ _. apply Htotal.
    + intros a b c _ _ _. apply Htrans.
  - intros name. apply sort_filter. intros a b Ha Hb. apply Hcmp.
    rewrite Ha, Hb. by destruct (Htotal name name).
Qed.

Lemma name_sort_ordered_witness :
  StronglySorted (λ a b, byLength (Bike.name a) (Bike.name b) ≤ 0)
    (sortedBikes defaultSettings byLength
       [Sample.free; Sample.rented; Sample.alsoFree] 1 "name" ∅ []) ∧
  (∀ name,
     filter (λ bike, Bike.name bike = name)
       (sortedBikes defaultSettings byLength
          [Sample.free; Sample.rented; Sample.alsoFree] 1 "name" ∅ []) =
     filter (λ bike, Bike.name bike = name)
       (filteredBikes defaultSettings
          [Sample.free; Sample.rented; Sample.alsoFree] ∅ [])).
Proof.
  apply (name_sort_ordered defaultSettings byLength
           [Sample.free; Sample.rented; Sample.alsoFree] 1 "name" ∅ []).
  - discriminate.
  - discriminate.
  - unfold consistentCompare, byLength. split; intros; lia.
Defined.

Lemma NoDup_fmap_eq {A B} (f : A → B) (l : list A) x y :
  NoDup (f <$> l) → x ∈ l → y ∈ l → f x = f y → x = y.
Proof.
  induction l as [|z l IH]; intros Hnd Hx Hy Hf; [by apply elem_of_nil in Hx|].
  rewrite fmap_cons in Hnd. apply NoDup_cons in Hnd as [Hz Hnd].
  apply elem_of_cons in Hx as [->|Hx], Hy as [->|Hy].
  - done.
  - destruct Hz. rewrite Hf. by apply list_elem_of_fmap_2.
  - destruct Hz. rewrite <- Hf. by apply list_elem_of_fmap_2.
  - by apply IH.
Qed.

(** X7: when the prices of the bikes kept are numbers of pairwise different
    value, a click on the Pricing header shows the rows in exactly the
    reverse order. *)
Theorem toggling_reverses_distinct_prices gs localeCompare bikes duration
    selectedDates shownDates :
  let kept := filteredBikes gs bikes selectedDates shownDates in
  let price := λ bike, Double.getPriceForDuration bike duration in
  (∀ bike, bike ∈ kept → Double.isNaN (price bike) = false) →
  NoDup ((λ bike, Double.rank (price bike)) <$> kept) →
  sortedBikes gs localeCompare bikes duration (toggleSort "asc") selectedDates shownDates =
  reverse (sortedBikes gs localeCompare bikes duration "asc" selectedDates shownDates).
Proof.
  intros kept price Hnum Hdistinct. subst kept. change (toggleSort "asc") with "desc".
  pose proof (rows_by_price gs localeCompare bikes duration "asc"
                selectedDates shownDates Hnum (λ _ _, eq_refl)) as Hasc.
  pose proof (rows_by_falling_price gs localeCompare bikes duration "desc"
                selectedDates shownDates Hnum (λ _ _, eq_refl)) as Hdesc.
  set (R := λ a b : Bike.t,
         Double.rank_le (Double.rank (price b)) (Double.rank (price a))) in *.
  assert (Transitive R) as HR.
  { intros a b c Hab Hbc. by apply (rank_le_trans _ _ _ Hbc). }
  assert (∀ so, sortedBikes gs localeCompare bikes duration so selectedDates shownDates
                ≡ₚ filteredBikes gs bikes selectedDates shownDates) as Hperm.
  { intros so. apply sort_Permutation. }
  apply (Sorted_unique_strong R).
  - intros x1 x2 Hx1 Hx2 H12 H21.
    rewrite reverse_Permutation in Hx2. rewrite Hperm in Hx1, Hx2.
    apply (NoDup_fmap_eq _ _ _ _ Hdistinct Hx1 Hx2).
    unfold R, Double.rank_le in H12, H21.
    destruct (Double.rank (price x1)) as [c1 v1], (Double.rank (price x2)) as [c2 v2].
    simpl in *. f_equal; lia.
  - by apply StronglySorted_Sorted.
  - apply (Sorted_reverse (flip R)). by apply StronglySorted_Sorted.
  - by rewrite reverse_Permutation, !Hperm.
Qed.

Lemma toggling_reverses_distinct_prices_witness :
  sortedBikes defaultSettings Sample.byCode [Sample.cheap; Sample.fixed; Sample.rented] 9
    (toggleSort "asc") ∅ [] =
  reverse (sortedBikes defaultSettings Sample.byCode
             [Sample.cheap; Sample.fixed; Sample.rented] 9 "asc" ∅ []).
Proof.
  apply (toggling_reverses_distinct_prices defaultSettings Sample.byCode
           [Sample.cheap; Sample.fixed; Sample.rented] 9 ∅ []).
  - intros bike Hbike.
    repeat (apply elem_of_cons in Hbike as [->|Hbike]; [reflexivity|]).
    by apply elem_of_nil in Hbike.
  - vm_compute. repeat (apply NoDup_cons; split; [|]).
    4: apply NoDup_nil_2.
    all: intros Hin;
      repeat (apply elem_of_cons in Hin as [Hin|Hin]; [discriminate Hin|]);
      by apply elem_of_nil in Hin.
Defined.

(** X8: [toggleSort] only ever hands on a price order; it turns ['asc'] into
    ['desc'] and everything else into ['asc'], so that after the first click
    it switches between the two and the name order is out of reach. *)
Theorem toggleSort_price_orders sortOrder :
  (toggleSort sortOrder = "asc" ∨ toggleSort sortOrder = "desc") ∧
  (toggleSort sortOrder = "desc" ↔ sortOrder = "asc") ∧
  toggleSort (toggleSort (toggleSort sortOrder)) = toggleSort sortOrder.
Proof.
  unfold toggleSort.
  destruct (String.eqb_spec sortOrder "asc") as [->|Hne]; simpl.
  - repeat split; auto.
  - repeat split; auto; done.
Qed.

(** ** Prices of the durations on offer *)

Lemma tierApplies_weekly days t :
  tierApplies days t = true → Js.atLeast (parseInt (Tier.days t)) 7 = true →
  7 ≤ days.
Proof.
  unfold tierApplies. destruct (Tier.days t) as [from|]; simpl; [|done].
  intros [Hge _]%andb_true_iff Hweek.
  apply Z.geb_le in Hge, Hweek. lia.
Qed.

(** X10: for every duration the selector of [App] offers, the quotient by 7
    that a weekly tier is multiplied with is a whole number of weeks, without
    rounding. The price is then 0, or the price a tier lists, or the product
    of that price and a whole number: the number of weeks for a weekly tier,
    the number of days for the default tier. No fraction of a week is ever
    priced. *)
Theorem offered_durations_whole_multiples bike pricing days :
  days ∈ durationOptions → Bike.pricing bike = Some pricing →
  (7 ≤ days → Double.div (Double.num days) (Double.num 7) = Double.num (days / 7) ∧
              days = 7 * (days / 7)) ∧
  (Double.getPriceForDuration bike days = Double.zero ∨
   ∃ t, t ∈ pricing ∧
     (Double.getPriceForDuration bike days = Double.parseFloat (Tier.price t) ∨
      ∃ k, 1 ≤ k ∧
        Double.getPriceForDuration bike days =
          Double.mul (Double.parseFloat (Tier.price t)) (Double.num k))).
Proof.
  intros Hdays Hpricing.
  assert (1 ≤ days ∧
          (7 ≤ days → Double.div (Double.num days) (Double.num 7) = Double.num (days / 7) ∧
                      days = 7 * (days / 7))) as [Hpos Hweeks].
  { unfold durationOptions in Hdays.
    repeat (apply elem_of_cons in Hdays as [->|Hdays];
            [split; [lia|]; intros H7;
             first [lia | split; vm_compute; reflexivity]|]).
    by apply elem_of_nil in Hdays. }
  split; [done|].
  rewrite (price_of_tiers _ _ _ Hpricing).
  destruct (List.find (tierApplies days) pricing) as [t|] eqn:Ht.
  - apply find_some in Ht as [Hin Happlies]. apply list_elem_of_In in Hin.
    right. exists t. split; [done|].
    destruct (Js.atLeast (parseInt (Tier.days t)) 7) eqn:Hweek; [|by left].
    pose proof (tierApplies_weekly _ _ Happlies Hweek) as H7.
    right. exists (days / 7).
    destruct (Hweeks H7) as [-> Hk]. split; [lia|done].
  - destruct (List.find isDefaultTier pricing) as [d|] eqn:Hd; [|by left].
    apply find_some in Hd as [Hin _]. apply list_elem_of_In in Hin.
    right. exists d. split; [done|]. right. by exists days.
Qed.

Lemma offered_durations_whole_multiples_witness :
  Double.div (Double.num 21) (Double.num 7) = Double.num (21 / 7) ∧
  (Double.getPriceForDuration Sample.byWeek 21 = Double.zero ∨
   ∃ t, t ∈ [Sample.perWeek] ∧
     (Double.getPriceForDuration Sample.byWeek 21 = Double.parseFloat (Tier.price t) ∨
      ∃ k, 1 ≤ k ∧
        Double.getPriceForDuration Sample.byWeek 21 =
          Double.mul (Double.parseFloat (Tier.price t)) (Double.num k))).
Proof.
  destruct (offered_durations_whole_multiples Sample.byWeek [Sample.perWeek] 21)
    as [Hweeks Hprice].
  - unfold durationOptions. do 5 apply list_elem_of_further. apply list_elem_of_here.
  - reflexivity.
  - split; [|exact Hprice]. apply Hweeks. lia.
Defined.

(** ** The sign of the price in the arithmetic of numbers *)

Lemma shr_fexp_nonneg m e l : 0 ≤ m → 0 ≤ shr_m (shr_fexp Double.prec Double.emax m e l).1.
Proof.
  intros Hm. unfold shr_fexp, shr.
  destruct (fexp Double.prec Double.emax (Zdigits2 m + e) - e); simpl;
    rewrite ?shr_record_of_loc_m; try done.
  rewrite iter_pos_shr_1_m by by rewrite shr_record_of_loc_m.
  rewrite shr_record_of_loc_m. apply Z.div_pos; lia.
Qed.

(** Rounding a mantissa that is not negative gives a number that is not
    negative, and no NaN. *)
Lemma binary_round_aux_nonNegative m e l :
  0 ≤ m → Double.nonNegative (binary_round_aux Double.prec Double.emax false m e l).
Proof.
  intros Hm. unfold binary_round_aux.
  pose proof (shr_fexp_nonneg m e l Hm) as H1.
  destruct (shr_fexp Double.prec Double.emax m e l) as [mrs' e']. simpl in H1.
  assert (0 ≤ round_nearest_even (shr_m mrs') (loc_of_shr_record mrs')) as Hr.
  { destruct (loc_of_shr_record mrs') as [|[| |]]; simpl; try lia.
    destruct (Z.even _); lia. }
  pose proof (shr_fexp_nonneg _ e' loc_Exact Hr) as H2.
  destruct (shr_fexp Double.prec Double.emax _ e' loc_Exact) as [mrs'' e'']. simpl in H2.
  destruct (shr_m mrs'') as [|p|p]; try done. by destruct (e'' <=? _).
Qed.

Lemma div_nonNegative m1 e1 m2 e2 :
  Double.nonNegative (Double.div (S754_finite false m1 e1) (S754_finite false m2 e2)).
Proof.
  unfold Double.div, SFdiv. cbn [xorb].
  destruct (SFdiv_core_binary Double.prec Double.emax (Z.pos m1) e1 (Z.pos m2) e2)
    as [[mz ez] lz] eqn:Hcore.
  apply binary_round_aux_nonNegative.
  unfold SFdiv_core_binary in Hcore.
  set (m' := match _ - _ - _ with
             | 0 => Z.pos m1
             | Z.pos _ => _
             | Z.neg _ => 0
             end) in Hcore.
  assert (0 ≤ m') as Hm'.
  { subst m'. destruct (_ - _ - _); try done. apply Z.shiftl_nonneg. lia. }
  assert (mz = m' / Z.pos m2) as ->.
  { unfold Z.div. by destruct (Z.div_eucl m' (Z.pos m2)) as [q r]; injection Hcore as <- _ _. }
  apply Z.div_pos; lia.
Qed.

Lemma parseFloat_nonNegative q : (0 ≤ q)%Qc → Double.nonNegative (Double.parseFloat q).
Proof.
  intros Hq. unfold Double.parseFloat.
  assert (0 ≤ Qnum q) as Hn.
  { unfold Qcle, Qle in Hq. simpl in Hq. lia. }
  destruct (Qnum q); [done|apply div_nonNegative|done].
Qed.

Lemma num_nonNegative z : 0 ≤ z → Double.nonNegative (Double.num z).
Proof.
  intros Hz. unfold Double.num, binary_normalize. destruct z as [|p|p]; [done| |done].
  by destruct (binary_round_pos false p 0) as (m' & e' & [-> | ->]).
Qed.

(** The product of two numbers that are not negative is not below zero: it
    is not negative, or it is the NaN of zero times infinity. *)
Lemma mul_not_below_zero a b :
  Double.nonNegative a → Double.nonNegative b → Double.ltb (Double.mul a b) Double.zero = false.
Proof.
  destruct a as [sa|[]| |[] ma ea], b as [sb|[]| |[] mb eb]; try done;
    intros _ _; try (by destruct sa); try (by destruct sb); try (by destruct sa, sb).
  unfold Double.mul, SFmul. cbn [xorb].
  pose proof (binary_round_aux_nonNegative (Z.pos (ma * mb)) (ea + eb) loc_Exact
                ltac:(lia)) as H.
  destruct (binary_round_aux _ _ _ _ _ _) as [s|s| |s m e]; try done;
    by destruct s.
Qed.

Lemma nonNegative_not_below_zero a : Double.nonNegative a → Double.ltb a Double.zero = false.
Proof. by destruct a as [[]|[]| |[] m e]. Qed.

(** X27: the sign of the price in the arithmetic of the table: when no tier
    of the bike lists a negative price, the price of a rental of at least one
    day is not below zero. *)
Theorem price_never_below_zero bike days :
  1 ≤ days →
  (∀ pricing p, Bike.pricing bike = Some pricing → p ∈ pricing →
                (0 ≤ Tier.price p)%Qc) →
  Double.ltb (Double.getPriceForDuration bike days) Double.zero = false.
Proof.
  intros Hdays Hprices.
  destruct (Bike.pricing bike) as [pricing|] eqn:Hpricing.
  - rewrite (price_of_tiers _ _ _ Hpricing).
    assert (Hp : ∀ f t, List.find f pricing = Some t →
                        Double.nonNegative (Double.parseFloat (Tier.price t))).
    { intros f t Hf. apply find_some in Hf as [Hin _].
      apply parseFloat_nonNegative, (Hprices pricing); [done|].
      by apply list_elem_of_In. }
    destruct (List.find (tierApplies days) pricing) as [t|] eqn:Ht.
    + specialize (Hp _ _ Ht).
      destruct (Js.atLeast (parseInt (Tier.days t)) 7);
        [|by apply nonNegative_not_below_zero].
      apply mul_not_below_zero; [done|].
      pose proof (num_nonNegative days ltac:(lia)) as Hd.
      destruct (Double.num days) as [s|[]| |[] m e]; try done.
      apply div_nonNegative.
    + destruct (List.find isDefaultTier pricing) as [d|] eqn:Hd; [|done].
      apply mul_not_below_zero; [by eapply Hp|]. apply num_nonNegative. lia.
  - unfold Double.getPriceForDuration. by rewrite Hpricing.
Qed.

(** Ten days at 160 a week are not below zero; one day in a tier listed at
    -5 is. *)
Lemma price_never_below_zero_witness :
  Double.ltb (Double.getPriceForDuration Sample.tiered 10) Double.zero = false ∧
  Double.ltb (Double.getPriceForDuration (Sample.priced (Some [Sample.refund])) 1)
    Double.zero = true.
Proof.
  split; [|reflexivity].
  apply (price_never_below_zero Sample.tiered 10).
  - lia.
  - intros pricing p [= <-] Hp.
    repeat (apply elem_of_cons in Hp as [->|Hp]; [discriminate|]).
    by apply not_elem_of_nil in Hp.
Defined.

(** ** The two revisions of [getStatus] *)

(** X11: the first revision of [getStatus] never answers loading, and it
    gives the answer of the current one on every bike and date for which the
    current one does not answer loading. *)
Theorem getStatus_legacy_agrees_unless_loading gs bike date :
  getStatus_legacy gs bike date ≠ Loading ∧
  (getStatus gs bike date = Loading ∨
   getStatus_legacy gs bike date = getStatus gs bike date).
Proof.
  unfold getStatus_legacy, getStatus. split.
  - destruct (Bike.bookings bike) as [bookings|];
      repeat (match goal with |- context [if ?b then _ else _] => destruct b end);
      done.
  - destruct (Bike.isLoading bike); [by left|].
    destruct (Bike.bookings bike) as [bookings|]; [by right|by left].
Qed.

(** ** Bookings that could not be fetched *)

Lemma isBooked_empty date : Js.truthy (isBooked ∅ date) = false.
Proof. unfold isBooked, Js.get. by rewrite !lookup_empty. Qed.

(** A bike that carries the empty map [{}] is never booked and never
    loading: its status is what the closure rules alone give the date. *)
Lemma getStatus_without_bookings gs bike date :
  Bike.isLoading bike = false → Bike.bookings bike = Some ∅ →
  getStatus gs bike date = statusByCalendar gs date ∧
  getStatus gs bike date ≠ Booked ∧ getStatus gs bike date ≠ Loading.
Proof.
  intros Hl Hb. rewrite (getStatus_loaded _ _ _ _ Hl Hb), isBooked_empty.
  unfold statusByCalendar. split; [done|].
  destruct (isStoreClosed gs date), (isHalfDay date); done.
Qed.

(** * Further properties of the data fetcher *)

(** ** What the fleet holds *)

(** Where a source unit comes from. *)
Lemma sourceUnits_origin imageMap isLoading data u :
  u ∈ sourceUnits imageMap isLoading data →
  ∃ key product metafields variants variantData,
    (key, Some product) ∈ data ∧
    Product.newMetafields product = Some (Some metafields) ∧
    Metafields.variantStock metafields = Some variants ∧
    (Bike.variantId u, variantData) ∈ variants ∧
    Bike.variantId u ≠ "product" ∧
    variantBike imageMap isLoading product metafields (Bike.variantId u) variantData
      = Some u.
Proof.
  unfold sourceUnits. rewrite list_elem_of_In, in_flat_map.
  intros ([key product] & Hentry & Hu). apply list_elem_of_In in Hentry, Hu.
  unfold candidates in Hu.
  apply list_elem_of_omap in Hu as ([vid r] & Hr & Hsome). simpl in Hsome. subst r.
  unfold records in Hr. simpl in Hr.
  destruct product as [product|]; [|by apply elem_of_nil in Hr].
  destruct (Product.newMetafields product) as [[metafields|]|] eqn:Hmf;
    try by apply elem_of_nil in Hr.
  destruct (Metafields.variantStock metafields) as [variants|] eqn:Hvs;
    [|by apply elem_of_nil in Hr].
  apply list_elem_of_fmap in Hr as ([variantId variantData] & [= -> Hbuilt] & Hin).
  apply list_elem_of_In, filter_In in Hin as [Hin Hkey]. simpl in *.
  apply list_elem_of_In in Hin. symmetry in Hbuilt.
  pose proof (variantBike_variantId _ _ _ _ _ _ _ Hbuilt) as Hid. subst variantId.
  exists key, product, metafields, variants, variantData.
  repeat split; try done.
  intros Heq. by rewrite Heq in Hkey.
Qed.

(** What the object literal writes besides the catalog's data. *)
Lemma variantBike_fields imageMap isLoading product metafields variantId variantData u :
  variantBike imageMap isLoading product metafields variantId variantData = Some u →
  Bike.isLoading u = isLoading ∧ Bike.bookings u = None ∧ Bike.pricing u ≠ None.
Proof.
  unfold variantBike.
  destruct variantData as [variantData|], (Product.id product) as [id|],
    (Product.handle product) as [handle|]; simpl; try done.
  by intros [= <-].
Qed.

(** X13: every unit of the fleet is built from a variant entry of a product
    whose metafields could be read, never from the ['product'] entry; it
    starts without bookings, marked as loading, and with a price list (empty
    when the variant lists no prices). *)
Theorem fleet_units_come_from_variants imageMap data bike :
  bike ∈ (extractBikeMetadata imageMap data).1 →
  (∃ key product metafields variants variantData,
     (key, Some product) ∈ data ∧
     Product.newMetafields product = Some (Some metafields) ∧
     Metafields.variantStock metafields = Some variants ∧
     (Bike.variantId bike, variantData) ∈ variants ∧
     variantBike imageMap true product metafields
       (Bike.variantId bike) variantData = Some bike) ∧
  Bike.variantId bike ≠ "product" ∧
  Bike.isLoading bike = true ∧ Bike.bookings bike = None ∧
  Bike.pricing bike ≠ None.
Proof.
  cbn [extractBikeMetadata fst]. intros Hbike.
  pose proof (elem_of_sublist _ _ _ Hbike (collect_sublist imageMap true data))
    as Hsource.
  apply sourceUnits_origin in Hsource
    as (key & product & metafields & variants & variantData
        & Hentry & Hmf & Hvs & Hin & Hkey & Heq).
  split; [by exists key, product, metafields, variants, variantData|].
  split; [done|]. by apply variantBike_fields in Heq.
Qed.

Lemma fleet_units_come_from_variants_witness :
  Bike.variantId Sample.pcx3 ≠ "product" ∧ Bike.isLoading Sample.pcx3 = true.
Proof.
  pose proof (fleet_units_come_from_variants ∅ Sample.catalog Sample.pcx3) as H.
  assert (Sample.pcx3 ∈ (extractBikeMetadata ∅ Sample.catalog).1) as Hin.
  { vm_compute. do 2 apply list_elem_of_further. apply list_elem_of_here. }
  destruct (H Hin) as (_ & Hkey & Hloading & _). by split.
Defined.

(** X14: the fleet lists, in source order, units that can be built from the
    records of the catalog, adds none of its own, and its identifiers are
    pairwise distinct, whatever the catalog holds. When every record of the
    catalog can be built, the fleet holds for each identifier exactly the
    unit of the first record that carries it. *)
Theorem fleet_is_ordered_selection imageMap data :
  let fleet := (extractBikeMetadata imageMap data).1 in
  fleet `sublist_of` sourceUnits imageMap true data ∧
  NoDup (Bike.variantId <$> fleet) ∧
  (wellFormed imageMap true data →
   ∀ pre u post,
     sourceUnits imageMap true data = pre ++ u :: post →
     (∀ u', u' ∈ pre → Bike.variantId u' ≠ Bike.variantId u) →
     filter (λ b, Bike.variantId b = Bike.variantId u) fleet = [u]).
Proof.
  cbn [extractBikeMetadata fst].
  split; [apply collect_sublist|]. split; [apply collect_NoDup|].
  intros Hwf pre u post Hdata Hpre.
  rewrite collect_first, Hdata, filter_app by done.
  rewrite filter_none by done.
  by rewrite filter_cons_True.
Qed.

(** In the sample catalog the variant "v2" is listed by two products, both
    in full; the fleet holds the unit of the first. *)
Lemma fleet_is_ordered_selection_witness :
  filter (λ b, Bike.variantId b = "v2") (extractBikeMetadata ∅ Sample.catalog).1 =
    [Sample.nmax2].
Proof.
  apply (proj2 (proj2 (fleet_is_ordered_selection ∅ Sample.catalog)))
    with (pre := [Sample.nmax1]) (u := Sample.nmax2)
         (post := [Sample.pcx2; Sample.pcx3]).
  - intros entry r Hentry Hr. unfold Sample.catalog in Hentry.
    repeat (apply elem_of_cons in Hentry as [->|Hentry];
            [vm_compute in Hr;
             repeat (apply elem_of_cons in Hr as [->|Hr]; [by eexists|]);
             by apply elem_of_nil in Hr|]).
    by apply elem_of_nil in Hentry.
  - reflexivity.
  - intros u' ->%list_elem_of_singleton. discriminate.
Defined.

(** X15: until the first bookings arrive every cell of the table is loading,
    and selecting any date empties the table. *)
Theorem unloaded_fleet_hidden_by_selection imageMap data gs localeCompare
    duration sortOrder (selectedDates : gset string) shownDates :
  let fleet := (extractBikeMetadata imageMap data).1 in
  (∀ bike date, bike ∈ fleet → getStatus gs bike date = Loading) ∧
  (selectedDates ≠ ∅ →
   sortedBikes gs localeCompare fleet duration sortOrder selectedDates shownDates = []).
Proof.
  cbn [extractBikeMetadata fst].
  assert (∀ bike, bike ∈ collect imageMap true data → Bike.isLoading bike = true)
    as Hloading.
  { intros bike Hbike.
    pose proof (elem_of_sublist _ _ _ Hbike (collect_sublist imageMap true data))
      as Hsource.
    apply sourceUnits_origin in Hsource as (? & ? & ? & ? & ? & _ & _ & _ & _ & _ & Hu).
    by apply variantBike_fields in Hu as [? _]. }
  split.
  - intros bike date Hbike. unfold getStatus. by rewrite (Hloading bike Hbike).
  - intros Hne. unfold sortedBikes.
    rewrite filteredBikes_selected by done.
    rewrite filter_none; [done|].
    intros bike Hbike (date & _ & Hfree)%Exists_exists.
    apply (unloaded_not_free gs selectedDates bike date); [|done].
    left. by apply Hloading.
Qed.

Lemma unloaded_fleet_hidden_by_selection_witness :
  sortedBikes defaultSettings Sample.byCode (extractBikeMetadata ∅ Sample.catalog).1
    1 "asc" {[ "2026-02-09" ]} (dates Sample.saturday 3) = [].
Proof.
  apply (proj2 (unloaded_fleet_hidden_by_selection ∅ Sample.catalog defaultSettings
                  Sample.byCode 1 "asc" {[ "2026-02-09" ]} (dates Sample.saturday 3))).
  intros H. apply (f_equal (λ X : gset string, size X)) in H.
  vm_compute in H. discriminate H.
Defined.

(** ** Loading the bookings progressively *)

Section Progress.

Context (fetchBookings : Bike.t → option (gmap string Js.value)).

Lemma merge_withBookings bike :
  App.merge (fetchBookings bike) bike = withBookings fetchBookings bike.
Proof. reflexivity. Qed.

(** An update leaves alone the bikes that carry another identifier. *)
Lemma update_others variantId bookings (l : list Bike.t) :
  variantId ∉ Bike.variantId <$> l →
  map (λ bike, if String.eqb (Bike.variantId bike) variantId
               then App.merge bookings bike else bike) l = l.
Proof.
  induction l as [|b l IH]; intros Hv; [done|].
  rewrite fmap_cons in Hv. apply not_elem_of_cons in Hv as [Hb Hl].
  cbn [map]. rewrite IH by done.
  by rewrite (proj2 (String.eqb_neq (Bike.variantId b) variantId)).
Qed.

Lemma progressFrom_app total i l1 l2 st :
  App.progressFrom fetchBookings total i (l1 ++ l2) st =
  App.progressFrom fetchBookings total (i + length l1) l2
    (App.progressFrom fetchBookings total i l1 st).
Proof.
  revert i st. induction l1 as [|b l1 IH]; intros i st; simpl.
  - by rewrite Nat.add_0_r.
  - rewrite IH. f_equal. lia.
Qed.

(** The bikes after the loop has run over [todo], a stretch of the fleet. *)
Lemma progressFrom_bikes total i pre todo post st :
  NoDup (Bike.variantId <$> pre ++ todo ++ post) →
  App.bikes st = pre ++ todo ++ post →
  App.bikes (App.progressFrom fetchBookings total i todo st) =
    pre ++ map (withBookings fetchBookings) todo ++ post.
Proof.
  revert i pre st. induction todo as [|u todo IH]; intros i pre st Hnd Hst;
    simpl; [done|].
  rewrite <- app_comm_cons in Hnd, Hst.
  rewrite (IH _ (pre ++ [withBookings fetchBookings u])).
  - by rewrite <- app_assoc.
  - rewrite <- app_assoc. rewrite <- app_comm_cons, app_nil_l.
    rewrite fmap_app, fmap_cons in Hnd |- *. done.
  - simpl. rewrite Hst.
    rewrite fmap_app, fmap_cons in Hnd.
    apply NoDup_app in Hnd as (_ & Hpre & Hnd).
    apply NoDup_cons in Hnd as [Hu _].
    rewrite map_app. cbn [map]. rewrite String.eqb_refl.
    rewrite (update_others _ _ (todo ++ post)) by done.
    rewrite update_others.
    + by rewrite <- app_assoc.
    + intros Hin. apply (Hpre _ Hin). apply list_elem_of_here.
Qed.

Lemma progressFrom_status total i todo st :
  App.status (App.progressFrom fetchBookings total i todo st) =
    match todo with
    | [] => App.status st
    | _ => {| App.loaded := i + length todo; App.total := total;
              App.isComplete := false |}
    end.
Proof.
  revert i st. induction todo as [|u todo IH]; intros i st; simpl; [done|].
  rewrite IH. destruct todo; simpl; f_equal; lia.
Qed.

Lemma progressFrom_globalSettings total i todo st :
  App.globalSettings (App.progressFrom fetchBookings total i todo st) =
    App.globalSettings st.
Proof.
  revert i st. induction todo as [|u todo IH]; intros i st; simpl; [done|].
  by rewrite IH.
Qed.

Lemma loadData_bikes data response :
  App.bikes (App.loadData fetchBookings data response) =
  map (withBookings fetchBookings) (collect (fetchProductImages response) true data).
Proof.
  cbn [App.loadData App.fetchBookingsProgressively App.onComplete
       extractBikeMetadata fst snd App.bikes].
  set (fleet := collect (fetchProductImages response) true data).
  rewrite (progressFrom_bikes _ _ [] fleet []); rewrite ?app_nil_r; simpl.
  - done.
  - apply collect_NoDup.
  - done.
Qed.

(** X16: loading the bookings bike by bike ends in the fleet that
    [fetchAvailabilityData] returns in one go, with the closure rules it
    returns, and with the progress counter at the size of the fleet and
    marked complete. *)
Theorem loadData_ends_as_fetchAvailabilityData data response :
  let final := App.loadData fetchBookings data response in
  let result := fetchAvailabilityData (fetchProductImages response) fetchBookings data in
  App.bikes final = result.2 ∧
  App.globalSettings final = Some result.1 ∧
  App.status final = {| App.loaded := length result.2;
                        App.total := length result.2;
                        App.isComplete := true |}.
Proof.
  cbn [App.loadData App.fetchBookingsProgressively App.onComplete
       fetchAvailabilityData extractBikeMetadata fst snd
       App.bikes App.globalSettings App.status App.loaded App.total].
  set (fleet := collect (fetchProductImages response) true data).
  rewrite progressFrom_globalSettings, progressFrom_status. simpl.
  rewrite (progressFrom_bikes _ _ [] fleet []); rewrite ?app_nil_r; simpl.
  - rewrite length_map. repeat split. by destruct fleet.
  - apply collect_NoDup.
  - done.
Qed.

(** X12: when every booking request fails, [fetchBookings] answers with the
    empty map [{}] its [catch] returns, and the table that results shows no
    booking and no loading cell: every bike has, on every date, the status
    the closure rules alone give that date. *)
Theorem failed_requests_show_calendar data response gs bike date :
  (∀ b, fetchBookings b = Some ∅) →
  bike ∈ App.bikes (App.loadData fetchBookings data response) →
  getStatus gs bike date = statusByCalendar gs date ∧
  getStatus gs bike date ≠ Booked ∧ getStatus gs bike date ≠ Loading.
Proof.
  intros Hfailed Hbike. rewrite loadData_bikes in Hbike.
  apply list_elem_of_In, in_map_iff in Hbike as (b & <- & _).
  apply getStatus_without_bookings; simpl; [done|apply Hfailed].
Qed.

(** X17: the progress counter runs one ahead of the data. While the request
    for a bike is under way the counter already includes that bike; the
    bikes whose bookings have arrived are exactly those before it, each with
    the bookings fetched for it, and the bike itself and those after it are
    as the catalog gave them. The answer to the request then updates that
    bike and the loop goes on with the rest. *)
Theorem progress_counts_the_pending_bike (fleet done rest : list Bike.t) bike st0 :
  fleet = done ++ bike :: rest →
  NoDup (Bike.variantId <$> fleet) →
  (∀ b, b ∈ fleet → Bike.isLoading b = true) →
  App.bikes st0 = fleet →
  let pending :=
    App.onProgress (length done + 1) (length fleet)
      (App.progressFrom fetchBookings (length fleet) 0 done st0) in
  App.loaded (App.status pending) = (length done + 1)%nat ∧
  App.bikes pending = map (withBookings fetchBookings) done ++ bike :: rest ∧
  arrived (App.bikes pending) = map (withBookings fetchBookings) done ∧
  App.bikes (App.onBikeUpdate (Bike.variantId bike) (fetchBookings bike) pending) =
    map (withBookings fetchBookings) (done ++ [bike]) ++ rest ∧
  App.progressFrom fetchBookings (length fleet) 0 fleet st0 =
    App.progressFrom fetchBookings (length fleet) (length done + 1) rest
      (App.onBikeUpdate (Bike.variantId bike) (fetchBookings bike) pending).
Proof.
  intros Hfleet Hnd Hloading Hst pending.
  assert (App.bikes pending = map (withBookings fetchBookings) done ++ bike :: rest)
    as Hbikes.
  { subst pending. cbn [App.onProgress App.bikes].
    rewrite (progressFrom_bikes _ _ [] done (bike :: rest)); simpl; [done| |].
    - by rewrite <- Hfleet.
    - by rewrite Hst. }
  split; [done|]. split; [done|]. split; [|split].
  - rewrite Hbikes. unfold arrived. rewrite filter_app.
    rewrite (filter_none _ (bike :: rest)).
    + rewrite app_nil_r. generalize done as l.
      induction l as [|b l IH]; [done|].
      cbn [map]. by rewrite filter_cons_True, IH.
    + intros b Hb. rewrite (Hloading b); [done|].
      rewrite Hfleet. apply elem_of_app. by right.
  - pose proof (progressFrom_bikes (length fleet) 0 []
                  (done ++ [bike]) rest st0) as Hnext.
    rewrite !app_nil_l, <- app_assoc in Hnext. simpl in Hnext.
    rewrite <- Hfleet in Hnext. specialize (Hnext Hnd Hst).
    rewrite progressFrom_app in Hnext. simpl in Hnext.
    by rewrite <- Hnext.
  - subst pending. rewrite Hfleet at 2. rewrite progressFrom_app. done.
Qed.

End Progress.

Lemma failed_requests_show_calendar_witness :
  getStatus defaultSettings (withBookings Sample.noBookings Sample.nmax1)
    Sample.sunday = statusByCalendar defaultSettings Sample.sunday.
Proof.
  apply (failed_requests_show_calendar Sample.noBookings Sample.catalog None
           defaultSettings (withBookings Sample.noBookings Sample.nmax1)
           Sample.sunday).
  - reflexivity.
  - vm_compute. apply list_elem_of_here.
Defined.

(** With the sample catalog, while the bookings of the second bike are
    fetched: the counter shows 2 of 3, and one bike has its bookings. *)
Lemma progress_counts_the_pending_bike_witness :
  App.loaded (App.status
    (App.onProgress 2 3
       (App.progressFrom Sample.noBookings 3 0 [Sample.nmax1]
          {| App.bikes := (extractBikeMetadata ∅ Sample.catalog).1;
             App.globalSettings := None;
             App.status := App.status App.initial |}))) = 2%nat ∧
  arrived (App.bikes
    (App.onProgress 2 3
       (App.progressFrom Sample.noBookings 3 0 [Sample.nmax1]
          {| App.bikes := (extractBikeMetadata ∅ Sample.catalog).1;
             App.globalSettings := None;
             App.status := App.status App.initial |}))) =
    [withBookings Sample.noBookings Sample.nmax1].
Proof.
  pose proof (progress_counts_the_pending_bike Sample.noBookings
    (extractBikeMetadata ∅ Sample.catalog).1
    [Sample.nmax1] [Sample.pcx3] Sample.nmax2
    {| App.bikes := (extractBikeMetadata ∅ Sample.catalog).1;
       App.globalSettings := None;
       App.status := App.status App.initial |}) as H.
  destruct H as (Hloaded & _ & Harrived & _).
  - reflexivity.
  - apply collect_NoDup.
  - intros b Hb. vm_compute in Hb.
    repeat (apply elem_of_cons in Hb as [->|Hb]; [reflexivity|]).
    by apply elem_of_nil in Hb.
  - reflexivity.
  - split; [exact Hloaded|exact Harrived].
Defined.

(** ** Updates of single bikes *)

(** X18: an update changes no identifier and no position; an update for an
    identifier the fleet does not hold changes nothing at all; and of two
    updates for the same identifier the later one decides. *)
Theorem onBikeUpdate_last_wins variantId bookings bookings' st :
  Bike.variantId <$> App.bikes (App.onBikeUpdate variantId bookings st) =
    Bike.variantId <$> App.bikes st ∧
  (variantId ∉ Bike.variantId <$> App.bikes st →
   App.onBikeUpdate variantId bookings st = st) ∧
  App.onBikeUpdate variantId bookings' (App.onBikeUpdate variantId bookings st) =
    App.onBikeUpdate variantId bookings' st.
Proof.
  destruct st as [l gs status]. unfold App.onBikeUpdate. simpl.
  split; [|split].
  - induction l as [|b l IH]; [done|].
    cbn [map]. rewrite !fmap_cons, IH. by destruct (String.eqb _ _).
  - intros Hv. by rewrite update_others.
  - f_equal. induction l as [|b l IH]; [done|].
    cbn [map]. rewrite IH. f_equal.
    destruct (String.eqb (Bike.variantId b) variantId) eqn:Hb; simpl; by rewrite Hb.
Qed.

Lemma onBikeUpdate_last_wins_witness :
  App.onBikeUpdate "v9" (Some Sample.endOfRental)
    {| App.bikes := [Sample.free; Sample.loading]; App.globalSettings := None;
       App.status := App.status App.initial |} =
    {| App.bikes := [Sample.free; Sample.loading]; App.globalSettings := None;
       App.status := App.status App.initial |}.
Proof.
  apply (proj1 (proj2 (onBikeUpdate_last_wins "v9" (Some Sample.endOfRental) None
           {| App.bikes := [Sample.free; Sample.loading]; App.globalSettings := None;
              App.status := App.status App.initial |}))).
  intros Hin. vm_compute in Hin.
  repeat (apply elem_of_cons in Hin as [Hin|Hin]; [discriminate Hin|]).
  by apply elem_of_nil in Hin.
Defined.

(** ** Closure rules of the catalog *)

Lemma find_skip {A} (f : A → bool) pre l :
  (∀ y, y ∈ pre → f y = false) → List.find f (pre ++ l) = List.find f l.
Proof.
  intros Hpre. induction pre as [|y pre IH]; simpl; [done|].
  rewrite (Hpre y) by apply list_elem_of_here.
  apply IH. intros z Hz. apply Hpre. by apply list_elem_of_further.
Qed.

(** X19: the closure rules are those of the first product that has
    metafields at all. When these cannot be read, or no product has any, the
    rules fall back to Sundays closed and no holidays, also when a later
    product carries readable rules; a missing list of closure days alone
    falls back to Sundays. *)
Theorem extractGlobalSettings_first_product (data pre post : exampleData) key product :
  data = pre ++ (key, Some product) :: post →
  (∀ k p, (k, Some p) ∈ pre → Product.newMetafields p = None) →
  is_Some (Product.newMetafields product) →
  extractGlobalSettings data =
    match Product.newMetafields product with
    | Some (Some metafields) =>
        {| Settings.closures := default [0] (Metafields.closures metafields);
           Settings.disabledDatesGlobal :=
             default ∅ (Metafields.disabledDatesGlobal metafields) |}
    | _ => {| Settings.closures := [0]; Settings.disabledDatesGlobal := ∅ |}
    end.
Proof.
  intros -> Hpre Hsome. unfold extractGlobalSettings.
  rewrite fmap_app, fmap_cons, find_skip; simpl.
  - rewrite bool_decide_eq_true_2 by done.
    by destruct (Product.newMetafields product) as [[?|]|].
  - intros [p|] Hp; [|done].
    apply list_elem_of_fmap in Hp as ([k p'] & Heq & Hin). simpl in Heq. subst p'.
    rewrite (Hpre k p Hin). apply bool_decide_eq_false_2. by intros [? ?].
Qed.

Lemma extractGlobalSettings_first_product_witness :
  extractGlobalSettings
    [("product1", None); ("product2", Some Sample.unreadable);
     ("product3", Some Sample.nmax)] =
    {| Settings.closures := [0]; Settings.disabledDatesGlobal := ∅ |}.
Proof.
  apply (extractGlobalSettings_first_product
           [("product1", None); ("product2", Some Sample.unreadable);
            ("product3", Some Sample.nmax)]
           [("product1", None)] [("product3", Some Sample.nmax)]
           "product2" Sample.unreadable).
  - reflexivity.
  - intros k p Hin. apply list_elem_of_singleton in Hin. discriminate Hin.
  - by eexists.
Defined.

(** X20: without any product that has metafields the closure rules are the
    defaults: Sundays closed, no holidays. *)
Theorem extractGlobalSettings_default (data : exampleData) :
  (∀ k p, (k, Some p) ∈ data → Product.newMetafields p = None) →
  extractGlobalSettings data =
    {| Settings.closures := [0]; Settings.disabledDatesGlobal := ∅ |}.
Proof.
  intros Hnone. unfold extractGlobalSettings.
  rewrite find_none; [done|].
  intros [p|] Hp; [|done].
  apply list_elem_of_fmap in Hp as ([k p'] & Heq & Hin). simpl in Heq. subst p'.
  rewrite (Hnone k p Hin). apply bool_decide_eq_false_2. by intros [? ?].
Qed.

Lemma extractGlobalSettings_default_witness :
  extractGlobalSettings [("product1", None)] =
    {| Settings.closures := [0]; Settings.disabledDatesGlobal := ∅ |}.
Proof.
  apply (extractGlobalSettings_default [("product1", None)]).
  intros k p Hin. apply list_elem_of_singleton in Hin. discriminate Hin.
Defined.

(** ** Product images *)

Lemma find_app {A} (f : A → bool) l1 l2 :
  List.find f (l1 ++ l2) =
  match List.find f l1 with
  | Some x => Some x
  | None => List.find f l2
  end.
Proof. induction l1 as [|x l1 IH]; simpl; [done|]. by destruct (f x). Qed.

Lemma images_fold (products : list Shopify.product) (m : gmap string string) h :
  fold_left
    (λ (imageMap : gmap string string) p,
       match Shopify.images p with
       | Some (first :: _) => <[Shopify.handle p := Shopify.src first]> imageMap
       | _ => imageMap
       end) products m !! h =
  match List.find (decidesImage h) (reverse products) with
  | Some p => Shopify.src <$> head (default [] (Shopify.images p))
  | None => m !! h
  end.
Proof.
  revert m. induction products as [|p products IH]; intros m; [done|].
  cbn [fold_left]. rewrite IH, reverse_cons, find_app.
  destruct (List.find (decidesImage h) (reverse products)); [done|].
  unfold decidesImage. simpl.
  destruct (Shopify.images p) as [[|first rest]|] eqn:Himg;
    rewrite ?andb_false_r; try done.
  rewrite andb_true_r. case_bool_decide as Hh; simpl.
  - by rewrite Himg, Hh, lookup_insert_eq.
  - by rewrite lookup_insert_ne.
Qed.

(** X21: the image of a handle is the first image of the last product in the
    response that carries that handle and has an image; products without
    images are passed over, and a failed request leaves every handle without
    image. *)
Theorem fetchProductImages_lookup response h :
  fetchProductImages response !! h =
    match response with
    | Some products =>
        p ← List.find (decidesImage h) (reverse products);
        Shopify.src <$> head (default [] (Shopify.images p))
    | None => None
    end.
Proof.
  destruct response as [products|]; simpl; [|done].
  rewrite images_fold.
  by destruct (List.find (decidesImage h) (reverse products)).
Qed.

(** ** Names and product numbers *)

Lemma split_nonempty sep s : split sep s ≠ [].
Proof.
  destruct s as [|c s]; simpl; [done|].
  destruct (Ascii.eqb c sep); [done|]. by destruct (split sep s).
Qed.

Lemma split_no_separator sep s :
  Forall (allChars (λ c, c ≠ sep)) (split sep s).
Proof.
  induction s as [|c s IH]; simpl; [by repeat constructor|].
  destruct (Ascii.eqb_spec c sep) as [->|Hne].
  - by constructor.
  - destruct (split sep s) as [|w ws]; [by repeat constructor|].
    apply Forall_cons in IH as [Hw Hws]. by constructor.
Qed.

Lemma split_whole sep s : allChars (λ c, c ≠ sep) s → split sep s = [s].
Proof.
  induction s as [|c s IH]; simpl; [done|]. intros [Hc Hs].
  rewrite (proj2 (Ascii.eqb_neq c sep) Hc), IH; done.
Qed.

Lemma last_cons_nonempty {A} (x : A) l d : l ≠ [] → List.last (x :: l) d = List.last l d.
Proof. by destruct l. Qed.

Lemma split_behind_separator sep a b :
  List.last (split sep (a +:+ String sep b)) EmptyString =
  List.last (split sep b) EmptyString ∧
  (2 ≤ length (split sep (a +:+ String sep b)))%nat.
Proof.
  induction a as [|c a [IHlast IHlen]]; simpl.
  - rewrite Ascii.eqb_refl. split.
    + apply last_cons_nonempty, split_nonempty.
    + pose proof (split_nonempty sep b). destruct (split sep b); simpl; [done|lia].
  - destruct (Ascii.eqb c sep).
    + split; [|simpl; lia].
      rewrite last_cons_nonempty; [done|apply split_nonempty].
    + destruct (split sep (a +:+ String sep b)) as [|w [|w' ws]];
        simpl in *; try lia. by split; [|lia].
Qed.

(** X22: the product number is what follows the last slash of the product
    id: it holds no slash itself, an id without slash is taken whole, and
    the text behind the last slash is found whatever precedes it. *)
Theorem lastSegment_after_last_slash :
  (∀ s, allChars (λ c, c ≠ "/"%char) (lastSegment s)) ∧
  (∀ s, allChars (λ c, c ≠ "/"%char) s → lastSegment s = s) ∧
  (∀ a b, allChars (λ c, c ≠ "/"%char) b → lastSegment (a +:+ String "/" b) = b).
Proof.
  unfold lastSegment. split; [|split].
  - intros s. pose proof (split_no_separator "/" s) as Hall.
    pose proof (split_nonempty "/" s) as Hne.
    induction Hall as [|w ws Hw Hws IH]; [done|].
    destruct ws as [|w' ws]; [done|]. by apply IH.
  - intros s Hs. by rewrite split_whole.
  - intros a b Hb.
    rewrite (proj1 (split_behind_separator "/" a b)). by rewrite split_whole.
Qed.

Lemma lastSegment_after_last_slash_witness :
  lastSegment ("gid://shopify/Product" +:+ String "/" "801") = "801".
Proof.
  apply (proj2 (proj2 lastSegment_after_last_slash) "gid://shopify/Product" "801").
  repeat split; discriminate.
Defined.

(** X23: splitting at a separator loses nothing: joining the pieces with the
    separator gives the string back. *)
Theorem split_join sep s :
  String.concat (String sep EmptyString) (split sep s) = s.
Proof.
  induction s as [|c s IH]; simpl; [done|].
  pose proof (split_nonempty sep s) as Hne.
  destruct (Ascii.eqb_spec c sep) as [->|Hc].
  - destruct (split sep s) as [|w ws]; [done|].
    simpl in *. by rewrite IH.
  - destruct (split sep s) as [|w ws]; [done|].
    destruct ws; simpl in *; by rewrite <- IH.
Qed.

Lemma allChars_impl (P Q : ascii → Prop) s :
  (∀ c, P c → Q c) → allChars P s → allChars Q s.
Proof. intros HPQ. induction s as [|c s IH]; simpl; [done|]. intros [? ?]. auto. Qed.

Lemma allChars_substring (P : ascii → Prop) n m s :
  allChars P s → allChars P (String.substring n m s).
Proof.
  revert n m. induction s as [|c s IH]; intros [|n] [|m]; simpl; try done.
  - intros [? ?]. auto.
  - intros [? ?]. auto.
  - intros [? ?]. auto.
Qed.

Lemma allChars_removeFirst (P : ascii → Prop) pat s :
  allChars P s → allChars P (removeFirst pat s).
Proof.
  induction s as [|c s IH]; [done|].
  intros Hs. cbn [removeFirst].
  destruct (String.prefix pat (String c s)).
  - by apply allChars_substring.
  - destruct Hs as [? ?]. simpl. auto.
Qed.

Lemma replaceDashes_no_dash s : allChars (λ c, c ≠ "-"%char) (replaceDashes s).
Proof.
  induction s as [|c s IH]; simpl; [done|]. split; [|done].
  destruct (Ascii.eqb_spec c "-"); [done|done].
Qed.

Lemma upper_not_lower c :
  c ≠ "-"%char → upper c ≠ "-"%char ∧ ¬ isLower (upper c).
Proof.
  intros Hc. unfold isLower.
  destruct c as [[] [] [] [] [] [] [] []]; vm_compute;
    (split; [first [discriminate | done] | lia]).
Qed.

(** X24: the name shown for a bike holds no dash and no lower-case letter,
    whatever the handle of the product is. *)
Theorem bikeName_upper_case handle :
  allChars (λ c, c ≠ "-"%char ∧ ¬ isLower c) (bikeName handle).
Proof.
  unfold bikeName.
  pose proof (allChars_removeFirst _ " rental" _ (replaceDashes_no_dash handle))
    as Hclean.
  induction (removeFirst " rental" (replaceDashes handle)) as [|c s IH];
    simpl; [done|].
  destruct Hclean as [Hc Hs]. split; [|by apply IH].
  by apply upper_not_lower.
Qed.

(** ** What the images and the loading flag do not decide *)

Section SameFleet.

Context (R : Bike.t → Bike.t → Prop).

(** Two walks over records that carry the same identifiers and fail at the
    same places add related units. *)
Lemma offer_related rs rs' st st' :
  Forall2 (λ r r', r.1 = r'.1 ∧ option_Forall2 R r.2 r'.2) rs rs' →
  Forall2 R (bikes st) (bikes st') → seenVariantIds st = seenVariantIds st' →
  Forall2 R (bikes (offer rs st)) (bikes (offer rs' st')) ∧
  seenVariantIds (offer rs st) = seenVariantIds (offer rs' st').
Proof.
  intros Hrs. revert st st'.
  induction Hrs as [|[vid r] [vid' r'] rs rs' [Hvid Hr] Hrs IH];
    intros st st' Hbikes Hseen; simpl; [done|].
  simpl in Hvid, Hr. subst vid'. rewrite <- Hseen.
  case_bool_decide; [by apply IH|].
  destruct Hr as [u u' Hu|]; simpl.
  - apply IH; simpl; [|by rewrite Hseen].
    apply Forall2_app; [done|]. by repeat constructor.
  - by rewrite Hseen.
Qed.

Lemma collect_related imageMap imageMap' isLoading isLoading' data :
  (∀ product metafields variantId variantData,
     option_Forall2 R
       (variantBike imageMap isLoading product metafields variantId variantData)
       (variantBike imageMap' isLoading' product metafields variantId variantData)) →
  Forall2 R (collect imageMap isLoading data) (collect imageMap' isLoading' data).
Proof.
  intros Hunit. unfold collect. rewrite !visitProducts_offer.
  assert (∀ st st',
            Forall2 R (bikes st) (bikes st') → seenVariantIds st = seenVariantIds st' →
            Forall2 R
              (bikes (fold_left (λ st entry, offer (records imageMap isLoading entry) st)
                        data st))
              (bikes (fold_left (λ st entry, offer (records imageMap' isLoading' entry) st)
                        data st'))) as Hfold.
  { induction data as [|entry data IH]; intros st st' Hbikes Hseen; simpl; [done|].
    destruct (offer_related (records imageMap isLoading entry)
                (records imageMap' isLoading' entry) st st') as [Hb Hs]; try done.
    - unfold records.
      destruct (entry.2) as [product|]; [|constructor].
      destruct (Product.newMetafields product) as [[metafields|]|]; try constructor.
      destruct (Metafields.variantStock metafields) as [variants|]; [|constructor].
      apply Forall2_fmap, Forall_Forall2_diag, Forall_forall.
      intros [variantId variantData] _. split; [done|apply Hunit].
    - by apply IH. }
  apply Hfold; [constructor|done].
Qed.

End SameFleet.

(** X25: the product images decide nothing but the image of a bike: with any
    two image maps the fleet holds the same variants in the same order and
    the same closure rules. *)
Theorem images_decide_only_images imageMap imageMap' data :
  Forall2 sameVariant (extractBikeMetadata imageMap data).1
                      (extractBikeMetadata imageMap' data).1 ∧
  (extractBikeMetadata imageMap data).2 = (extractBikeMetadata imageMap' data).2.
Proof.
  cbn [extractBikeMetadata fst snd]. split; [|done].
  apply collect_related. intros product metafields variantId variantData.
  unfold variantBike.
  destruct variantData as [variantData|], (Product.id product) as [id|],
    (Product.handle product) as [handle|]; simpl; constructor.
  by repeat split.
Qed.

Lemma withBookings_related fetchBookings (l l' : list Bike.t) :
  (∀ a b, sameVariant a b → fetchBookings a = fetchBookings b) →
  Forall2 sameButLoading l l' →
  map (withBookings fetchBookings) l = map (withBookings fetchBookings) l'.
Proof.
  intros Hfetch Hl. induction Hl as [|a b l l' [Hab Himage] Hl IH]; [done|].
  cbn [map]. rewrite IH. f_equal. unfold withBookings.
  rewrite (Hfetch a b Hab), Himage.
  destruct Hab as (-> & -> & -> & -> & -> & -> & -> & _). done.
Qed.

(** X26: the [fetchAvailabilityData] kept for backward compatibility returns
    the fleet the earlier one returned, as long as the booking request does
    not depend on the image or the loading flag of a bike. *)
Theorem fetchAvailabilityData_backward_compatible imageMap fetchBookings data :
  (∀ a b, sameVariant a b → fetchBookings a = fetchBookings b) →
  fetchAvailabilityData imageMap fetchBookings data =
  fetchAvailabilityData_legacy imageMap fetchBookings data.
Proof.
  intros Hfetch.
  unfold fetchAvailabilityData, fetchAvailabilityData_legacy, extractBikeMetadata.
  f_equal. apply withBookings_related; [done|].
  apply collect_related. intros product metafields variantId variantData.
  unfold variantBike.
  destruct variantData as [variantData|], (Product.id product) as [id|],
    (Product.handle product) as [handle|]; simpl; constructor.
  by repeat split.
Qed.

Lemma fetchAvailabilityData_backward_compatible_witness :
  fetchAvailabilityData ∅ Sample.noBookings Sample.catalog =
  fetchAvailabilityData_legacy ∅ Sample.noBookings Sample.catalog.
Proof.
  apply (fetchAvailabilityData_backward_compatible ∅ Sample.noBookings Sample.catalog).
  reflexivity.
Defined.
